(** * Share-secret creation: the submit handler of AddShareSecretModal.tsx

    A shallow embedding of
    [frontend/src/views/ShareSecretPage/components/AddShareSecretModal.tsx]:
    the table [expirationUnitsAndActions], the yup [schema], and the handler
    [onFormSubmit] wrapped by react-hook-form's [handleSubmit].  The JavaScript
    library functions the handler calls ([Date], [encodeURIComponent],
    [Buffer.toString("hex")]) are embedded after ECMA-262 and Node's
    documentation, SHA-256 after FIPS 180-4; the cipher and the host's time
    zone are parameters of the development (class [Platform]).

    Numbers.  A [Number] is a double: NaN, an infinity, an integer [Int z] or
    a fraction [Frac m e], the quotient of [m] by [2^e].  The schema asks a
    number field for a number of at least 1 and for nothing else, so all of
    these reach the handler.  A sum or product with a fraction is rounded to
    the nearest double ([round_double]).  Sums and products of integers are
    written in [Z]: every integer of magnitude at most 2^53 is a double, and
    the arithmetic of the code on such integers is exact as long as the result
    stays in that range.  The statements that depend on the value of such a
    sum say for which clocks and values this is so ([exact_for]).

    Strings.  A string is the list of its UTF-16 code units, integers in
    [0, 65535]; [str] gives the code units of an ASCII literal.

    The last two parts of the file cover the rest of the modal (the link and
    copy state, [copyUrlToClipboard], [onOpenChange]) and the callbacks of
    [frontend/src/components/v2/UpgradeProjectAlert/UpgradeProjectAlert.tsx]
    ([onSuccess], [onUpgradeProject], [isLoading]). *)

From Stdlib Require Import ZArith List Lia String Ascii Bool.
From stdpp Require Import base list gmap relations.
Import ListNotations.
Local Open Scope Z_scope.

(* ===================================================================== *)
(** * Definitions *)
(* ===================================================================== *)

(** ** Numbers and strings of the JavaScript runtime *)

(** [Int z] is the integer [z]; [Frac m e] is [m / 2^e], used for the finite
    numbers that are no integers.  The two zeros are one number here: the
    code never divides and never prints a zero. *)
Inductive Number : Type :=
| NaN
| Int (z : Z)
| Frac (m : Z) (e : positive)
| Infinity (negative : bool).

(** [m / 2^k] rounded to the nearest integer, to the even one on a tie. *)
Definition nearest_even (m k : Z) : Z :=
  let q := m / 2 ^ k in
  let r := m mod 2 ^ k in
  if 2 * r <? 2 ^ k then q
  else if 2 ^ k <? 2 * r then q + 1
  else if Z.even q then q else q + 1.

(** The finite number [m / 2^e] in lowest terms. *)
Fixpoint lowest_terms (m : Z) (e : nat) : Number :=
  match e with
  | O => Int m
  | S e' => if Z.even m then lowest_terms (m / 2) e' else Frac m (Pos.of_succ_nat e')
  end.

(** The double nearest to [m / 2^e], for [0 <= e] (IEEE 754, round to
    nearest, ties to even): 53 significant bits are kept and no bit below
    2^-1074; a result of magnitude 2^1024 or more is infinite. *)
Definition round_double (m e : Z) : Number :=
  let k := Z.max 0 (Z.max (Z.log2 (Z.abs m) - 52) (e - 1074)) in
  let m' := nearest_even m k in
  if 2 ^ (1024 + e) <=? Z.abs m' * 2 ^ k then Infinity (m' <? 0)
  else if e <=? k then Int (m' * 2 ^ (k - e))
  else lowest_terms m' (Z.to_nat (e - k)).

(** The sign of a number that is not NaN, as an integer of that sign. *)
Definition numerator (a : Number) : Z :=
  match a with
  | NaN => 0
  | Int z => z
  | Frac m _ => m
  | Infinity negative => if negative then -1 else 1
  end.

Definition num_add (a b : Number) : Number :=
  match a, b with
  | NaN, _ | _, NaN => NaN
  | Int x, Int y => Int (x + y)
  | Int x, Frac m e | Frac m e, Int x => round_double (x * 2 ^ Z.pos e + m) (Z.pos e)
  | Frac m e, Frac m' e' =>
      round_double (m * 2 ^ Z.pos e' + m' * 2 ^ Z.pos e) (Z.pos e + Z.pos e')
  | Infinity s, Infinity s' => if Bool.eqb s s' then Infinity s else NaN
  | Infinity s, _ | _, Infinity s => Infinity s
  end.

Definition num_mul (a b : Number) : Number :=
  match a, b with
  | NaN, _ | _, NaN => NaN
  | Int x, Int y => Int (x * y)
  | Int x, Frac m e | Frac m e, Int x => round_double (x * m) (Z.pos e)
  | Frac m e, Frac m' e' => round_double (m * m') (Z.pos e + Z.pos e')
  | Infinity s, c | c, Infinity s =>
      if numerator c =? 0 then NaN else Infinity (xorb s (numerator c <? 0))
  end.

(** ToBoolean on a number: [0] and [NaN] are falsy. *)
Definition truthy (a : Number) : bool :=
  match a with
  | NaN => false
  | Int z => negb (z =? 0)
  | Frac m _ => negb (m =? 0)
  | Infinity _ => true
  end.

(** ToIntegerOrInfinity on a finite number: the fraction is dropped.  [None]
    stands for a number that is not finite, which every caller below turns
    into NaN. *)
Definition ToInteger (a : Number) : option Z :=
  match a with
  | Int z => Some z
  | Frac m e => Some (Z.quot m (2 ^ Z.pos e))
  | _ => None
  end.

Definition finite (a : Number) : bool :=
  match a with
  | Int _ | Frac _ _ => true
  | _ => false
  end.

(** [n <= a] for an integer [n]; false for NaN. *)
Definition at_least (n : Z) (a : Number) : bool :=
  match a with
  | NaN => false
  | Int z => n <=? z
  | Frac m e => n * 2 ^ Z.pos e <=? m
  | Infinity negative => negb negative
  end.

(** A string is its sequence of UTF-16 code units. *)
Definition jsstring : Type := list Z.

Definition code_unit (a : ascii) : Z := Z.of_nat (nat_of_ascii a).

(** The code units of an ASCII literal. *)
Definition str (s : string) : jsstring := map code_unit (list_ascii_of_string s).

Definition jsstring_eqb (a b : jsstring) : bool :=
  bool_decide (a = b).

(** ** Date: the time arithmetic of ECMA-262, section "Date Objects" *)

Module Time.

Definition msPerDay : Z := 86400000.
Definition msPerHour : Z := 3600000.
Definition msPerMinute : Z := 60000.
Definition msPerSecond : Z := 1000.
Definition HoursPerDay : Z := 24.
Definition MinutesPerHour : Z := 60.
Definition SecondsPerMinute : Z := 60.

(** [Z.div] rounds towards minus infinity and [Z.modulo] takes the sign of
    the divisor, as [floor] and the standard's [modulo] do. *)
Definition Day (t : Z) : Z := t / msPerDay.
Definition TimeWithinDay (t : Z) : Z := t mod msPerDay.

Definition DaysInYear (y : Z) : Z :=
  if negb (y mod 4 =? 0) then 365
  else if negb (y mod 100 =? 0) then 366
  else if negb (y mod 400 =? 0) then 365
  else 366.

Definition DayFromYear (y : Z) : Z :=
  365 * (y - 1970) + (y - 1969) / 4 - (y - 1901) / 100 + (y - 1601) / 400.

Definition TimeFromYear (y : Z) : Z := msPerDay * DayFromYear y.

(** The standard defines YearFromTime(t) as the largest integer [y] with
    [TimeFromYear y <= t].  The code below computes it from the mean length
    of a Gregorian year (146097 days in 400 years) and one correction step;
    [YearFromTime_spec] shows that it is that largest integer. *)
Definition YearFromTime (t : Z) : Z :=
  let d := Day t in
  let y := 1970 + (400 * d) / 146097 in
  if DayFromYear (y + 1) <=? d then y + 1
  else if d <? DayFromYear y then y - 1
  else y.

(** 0 for a year of 365 days, 1 for a year of 366. *)
Definition leapDays (y : Z) : Z := if DaysInYear y =? 365 then 0 else 1.

Definition InLeapYear (t : Z) : Z := leapDays (YearFromTime t).

Definition DayWithinYear (t : Z) : Z := Day t - DayFromYear (YearFromTime t).

(** The day within the year on which month [m] (0 = January) starts. *)
Definition MonthStart (m leap : Z) : Z :=
  match m with
  | 0 => 0
  | 1 => 31
  | 2 => 59 + leap
  | 3 => 90 + leap
  | 4 => 120 + leap
  | 5 => 151 + leap
  | 6 => 181 + leap
  | 7 => 212 + leap
  | 8 => 243 + leap
  | 9 => 273 + leap
  | 10 => 304 + leap
  | _ => 334 + leap
  end.

Definition MonthFromTime (t : Z) : Z :=
  let d := DayWithinYear t in
  let l := InLeapYear t in
  if d <? 31 then 0
  else if d <? 59 + l then 1
  else if d <? 90 + l then 2
  else if d <? 120 + l then 3
  else if d <? 151 + l then 4
  else if d <? 181 + l then 5
  else if d <? 212 + l then 6
  else if d <? 243 + l then 7
  else if d <? 273 + l then 8
  else if d <? 304 + l then 9
  else if d <? 334 + l then 10
  else 11.

Definition DateFromTime (t : Z) : Z :=
  let d := DayWithinYear t in
  let l := InLeapYear t in
  match MonthFromTime t with
  | 0 => d + 1
  | 1 => d - 30
  | 2 => d - 58 - l
  | 3 => d - 89 - l
  | 4 => d - 119 - l
  | 5 => d - 150 - l
  | 6 => d - 180 - l
  | 7 => d - 211 - l
  | 8 => d - 242 - l
  | 9 => d - 272 - l
  | 10 => d - 303 - l
  | _ => d - 333 - l
  end.

Definition HourFromTime (t : Z) : Z := (t / msPerHour) mod HoursPerDay.
Definition MinFromTime (t : Z) : Z := (t / msPerMinute) mod MinutesPerHour.
Definition SecFromTime (t : Z) : Z := (t / msPerSecond) mod SecondsPerMinute.
Definition msFromTime (t : Z) : Z := t mod msPerSecond.

(** MakeTime, MakeDay, MakeDate: NaN when an argument is not finite;
    MakeTime and MakeDay take the integer part of each argument.  The sums
    are those of the doubles while they stay within 2^53 in magnitude. *)
Definition MakeTime (hour min sec ms : Number) : Number :=
  match ToInteger hour, ToInteger min, ToInteger sec, ToInteger ms with
  | Some h, Some m, Some s, Some milli =>
      Int (h * msPerHour + m * msPerMinute + s * msPerSecond + milli)
  | _, _, _, _ => NaN
  end.

(** The standard asks for a time value [t] with YearFromTime(t) = ym,
    MonthFromTime(t) = mn and DateFromTime(t) = 1; the first instant of that
    month is such a value ([MakeDay_first_of_month]). *)
Definition MakeDay (year month date : Number) : Number :=
  match ToInteger year, ToInteger month, ToInteger date with
  | Some y, Some m, Some dt =>
      let ym := y + m / 12 in
      let mn := m mod 12 in
      let t := TimeFromYear ym + msPerDay * MonthStart mn (leapDays ym) in
      Int (Day t + dt - 1)
  | _, _, _ => NaN
  end.

Definition MakeDate (day time : Number) : Number :=
  if finite day && finite time
  then
    let tv := num_add (num_mul day (Int msPerDay)) time in
    if finite tv then tv else NaN
  else NaN.

Definition maxTime : Z := 8640000000000000.

Definition TimeClip (time : Number) : Number :=
  match time with
  | Int t => if maxTime <? Z.abs t then NaN else Int t
  | Frac m e =>
      let t := Z.quot m (2 ^ Z.pos e) in
      if maxTime <? Z.abs t then NaN else Int t
  | _ => NaN
  end.

End Time.

(** ** Buffers and strings: UTF-16, UTF-8, hexadecimal, percent-encoding *)

Definition byte : Type := Byte.byte.

Definition byte_val (b : byte) : Z := Z.of_N (Byte.to_N b).

(** The byte with value [z]; every call below passes a value in [0, 255]. *)
Definition octet (z : Z) : byte :=
  match Byte.of_N (Z.to_N z) with
  | Some b => b
  | None => Byte.x00
  end.

Definition is_leading_surrogate (c : Z) : bool := (55296 <=? c) && (c <=? 56319).
Definition is_trailing_surrogate (c : Z) : bool := (56320 <=? c) && (c <=? 57343).

(** UTF16SurrogatePairToCodePoint. *)
Definition surrogate_pair (lead trail : Z) : Z :=
  (lead - 55296) * 1024 + (trail - 56320) + 65536.

(** The octets of the UTF-8 encoding of a code point. *)
Definition utf8_octets (cp : Z) : list Z :=
  if cp <? 128 then [cp]
  else if cp <? 2048 then [192 + cp / 64; 128 + cp mod 64]
  else if cp <? 65536 then
    [224 + cp / 4096; 128 + (cp / 64) mod 64; 128 + cp mod 64]
  else
    [240 + cp / 262144; 128 + (cp / 4096) mod 64; 128 + (cp / 64) mod 64;
     128 + cp mod 64].

(** [Buffer.from(s, "utf8")], which [hash.update(s)] applies to a string
    argument: an unpaired surrogate becomes U+FFFD (EF BF BD). *)
Fixpoint utf8_bytes (s : jsstring) : list byte :=
  match s with
  | [] => []
  | c :: rest =>
      if is_leading_surrogate c then
        match rest with
        | d :: rest' =>
            if is_trailing_surrogate d
            then map octet (utf8_octets (surrogate_pair c d)) ++ utf8_bytes rest'
            else map octet [239; 191; 189] ++ utf8_bytes rest
        | [] => map octet [239; 191; 189]
        end
      else if is_trailing_surrogate c then map octet [239; 191; 189] ++ utf8_bytes rest
      else map octet (utf8_octets c) ++ utf8_bytes rest
  end.

(** [buf.toString("hex")]: two lowercase digits per byte. *)
Definition hex_digit (d : Z) : Z := if d <? 10 then 48 + d else 87 + d.

Definition hex_of_byte (b : byte) : jsstring :=
  [hex_digit (byte_val b / 16); hex_digit (byte_val b mod 16)].

Definition toString_hex (bs : list byte) : jsstring := concat (map hex_of_byte bs).

(** The alphabet of [toString_hex]: [0-9a-f]. *)
Definition is_hex (c : Z) : bool :=
  ((48 <=? c) && (c <=? 57)) || ((97 <=? c) && (c <=? 102)).

(** What the handler can throw. *)
Inductive Exn : Type :=
| URIError
| TypeError
| AxiosError (status : option Z).

Inductive Outcome (A : Type) : Type :=
| Ok (a : A)
| Throw (e : Exn).
Arguments Ok {A} a.
Arguments Throw {A} e.

Definition outcome_map {A B : Type} (f : A -> B) (o : Outcome A) : Outcome B :=
  match o with
  | Ok a => Ok (f a)
  | Throw e => Throw e
  end.

(** uriUnescaped of ECMA-262: letters, digits and the marks [-_.!~*'()]. *)
Definition uriAlpha (c : Z) : bool :=
  ((97 <=? c) && (c <=? 122)) || ((65 <=? c) && (c <=? 90)).
Definition DecimalDigit (c : Z) : bool := (48 <=? c) && (c <=? 57).
Definition uriMark (c : Z) : bool :=
  existsb (Z.eqb c) (str "-_.!~*'()").
Definition uriUnescaped (c : Z) : bool := uriAlpha c || DecimalDigit c || uriMark c.

Definition upper_hex_digit (d : Z) : Z := if d <? 10 then 48 + d else 55 + d.

(** ["%XX"] for one octet. *)
Definition percent (o : Z) : jsstring :=
  [37; upper_hex_digit (o / 16); upper_hex_digit (o mod 16)].

(** Encode(string, "") of ECMA-262, the body of [encodeURIComponent]:
    an unescaped code unit is copied; any other code point is written as the
    percent-escapes of its UTF-8 octets; an unpaired surrogate throws. *)
Fixpoint encodeURIComponent (s : jsstring) : Outcome jsstring :=
  match s with
  | [] => Ok []
  | c :: rest =>
      if uriUnescaped c then outcome_map (cons c) (encodeURIComponent rest)
      else if is_trailing_surrogate c then Throw URIError
      else if is_leading_surrogate c then
        match rest with
        | d :: rest' =>
            if is_trailing_surrogate d
            then outcome_map (app (concat (map percent (utf8_octets (surrogate_pair c d)))))
                             (encodeURIComponent rest')
            else Throw URIError
        | [] => Throw URIError
        end
      else outcome_map (app (concat (map percent (utf8_octets c)))) (encodeURIComponent rest)
  end.

(** ** SHA-256 (FIPS 180-4), the algorithm [crypto.createHash("sha256")] names *)

Module SHA256.

(** A word is an integer in [0, 2^32). *)
Definition mask : Z := 0xffffffff.
Definition add32 (x y : Z) : Z := (x + y) mod 0x100000000.
Definition ROTR (n x : Z) : Z :=
  Z.lor (Z.shiftr x n) (Z.land (Z.shiftl x (32 - n)) mask).
Definition SHR (n x : Z) : Z := Z.shiftr x n.

Definition Ch (x y z : Z) : Z := Z.lxor (Z.land x y) (Z.land (Z.lxor x mask) z).
Definition Maj (x y z : Z) : Z :=
  Z.lxor (Z.lxor (Z.land x y) (Z.land x z)) (Z.land y z).
Definition Sigma0 (x : Z) : Z := Z.lxor (Z.lxor (ROTR 2 x) (ROTR 13 x)) (ROTR 22 x).
Definition Sigma1 (x : Z) : Z := Z.lxor (Z.lxor (ROTR 6 x) (ROTR 11 x)) (ROTR 25 x).
Definition sigma0 (x : Z) : Z := Z.lxor (Z.lxor (ROTR 7 x) (ROTR 18 x)) (SHR 3 x).
Definition sigma1 (x : Z) : Z := Z.lxor (Z.lxor (ROTR 17 x) (ROTR 19 x)) (SHR 10 x).

(** The constants are defined as FIPS 180-4 defines them: the first 32
    bits of the fractional parts of the cube roots (for [K]) and of the
    square roots (for [H0]) of the first primes. *)
Definition is_prime (n : Z) : bool :=
  (1 <? n) && forallb (fun d => negb (n mod Z.of_nat d =? 0)) (seq 2 (Z.to_nat n - 2)).

Definition primes : list Z :=
  List.filter is_prime (map Z.of_nat (seq 2 310)).

(** The largest [x] in [lo, lo + 2^bits) with [x ^ 3 <= t], by bisection. *)
Fixpoint cube_root (bits : nat) (lo t : Z) : Z :=
  match bits with
  | O => lo
  | S b =>
      let mid := lo + 2 ^ Z.of_nat b in
      if mid * mid * mid <=? t then cube_root b mid t else cube_root b lo t
  end.

Definition frac_cube_root (q : Z) : Z := cube_root 40 0 (q * 2 ^ 96) mod 2 ^ 32.
Definition frac_square_root (q : Z) : Z := Z.sqrt (q * 2 ^ 64) mod 2 ^ 32.

Definition K : list Z := Eval vm_compute in map frac_cube_root primes.

Definition State : Type := (Z * Z * Z * Z * Z * Z * Z * Z)%type.

Definition H0 : State :=
  Eval vm_compute in
    match map frac_square_root primes with
    | a :: b :: c :: d :: e :: f :: g :: h :: _ => (a, b, c, d, e, f, g, h)
    | _ => (0, 0, 0, 0, 0, 0, 0, 0)
    end.

(** Padding: the bit 1, zeros up to 56 modulo 64 bytes, and the length of
    the message in bits as 8 big-endian bytes. *)
Definition be_bytes (n : nat) (x : Z) : list Z :=
  map (fun i => (x / 256 ^ Z.of_nat i) mod 256) (rev (seq 0 n)).

Definition pad (m : list byte) : list Z :=
  let l := Z.of_nat (length m) in
  map byte_val m ++ [0x80] ++ repeat 0 (Z.to_nat ((55 - l) mod 64)) ++ be_bytes 8 (8 * l).

Fixpoint words (bs : list Z) : list Z :=
  match bs with
  | a :: b :: c :: d :: rest => (((a * 256 + b) * 256 + c) * 256 + d) :: words rest
  | _ => []
  end.

Fixpoint blocks (fuel : nat) (ws : list Z) : list (list Z) :=
  match fuel, ws with
  | S fuel', _ :: _ => firstn 16 ws :: blocks fuel' (skipn 16 ws)
  | _, _ => []
  end.

(** The message schedule, newest word first while it is built. *)
Definition extend (rw : list Z) : list Z :=
  add32 (add32 (sigma1 (List.nth 1 rw 0)) (List.nth 6 rw 0))
        (add32 (sigma0 (List.nth 14 rw 0)) (List.nth 15 rw 0)) :: rw.

Definition schedule (block : list Z) : list Z :=
  rev (Nat.iter 48 extend (rev block)).

Definition round (s : State) (kw : Z * Z) : State :=
  let '(a, b, c, d, e, f, g, h) := s in
  let T1 := add32 (add32 (add32 (add32 h (Sigma1 e)) (Ch e f g)) (fst kw)) (snd kw) in
  let T2 := add32 (Sigma0 a) (Maj a b c) in
  (add32 T1 T2, a, b, c, add32 d T1, e, f, g).

Definition compress (hs : State) (block : list Z) : State :=
  let '(a, b, c, d, e, f, g, h) := fold_left round (combine K (schedule block)) hs in
  let '(a0, b0, c0, d0, e0, f0, g0, h0) := hs in
  (add32 a0 a, add32 b0 b, add32 c0 c, add32 d0 d,
   add32 e0 e, add32 f0 f, add32 g0 g, add32 h0 h).

Definition digest_words (m : list byte) : State :=
  let ws := words (pad m) in
  fold_left compress (blocks (length ws) ws) H0.

Definition sha256 (m : list byte) : list byte :=
  let '(a, b, c, d, e, f, g, h) := digest_words m in
  map octet (concat (map (be_bytes 4) [a; b; c; d; e; f; g; h])).

End SHA256.

(** ** The platform: what the runtime and the crypto library provide *)

(** What [encryptSymmetric] returns. *)
Module Cipher.
Record Sealed : Type := {
  ciphertext : jsstring;
  iv : jsstring;
  tag : jsstring
}.
End Cipher.

Class Platform : Type := {
  (** LocalTZA(t, isUTC) of ECMA-262: the offset of local time in
      milliseconds, defined by the host's time zone. *)
  LocalTZA : Z -> bool -> Z;
  (** The authenticated cipher behind [encryptSymmetric]: plaintext, key and
      nonce to ciphertext, encoded nonce and tag. *)
  seal : jsstring -> jsstring -> list byte -> Cipher.Sealed;
  (** Number of random bytes of a nonce. *)
  ivLength : nat
}.

(** ** The world the handler runs in *)

Definition loc : Type := nat.

(** The argument of [createSharedSecret.mutateAsync]; [expiresAt] is the time
    value the Date object holds when the call is made. *)
Record Payload : Type := {
  encryptedValue : jsstring;
  iv : jsstring;
  tag : jsstring;
  hashedHex : jsstring;
  expiresAt : Number;
  expiresAfterViews : Number
}.

(** The calls that leave the handler, in the order they are made. *)
Inductive Event : Type :=
| MutateAsync (p : Payload)
| SetNewSharedSecret (link : jsstring)
| CreateNotification (text type : jsstring)
| ConsoleError (e : Exn).

Record World : Type := {
  dates : list Number;     (* the Date objects allocated so far, by address *)
  drawn : nat;             (* random bytes consumed *)
  sealings : nat;          (* calls of the cipher *)
  trace : list Event
}.

(** What one submission reads from its surroundings. *)
Record Env : Type := {
  now : Z;                                  (* the clock read by [new Date()] *)
  entropy : nat -> byte;                    (* the stream behind [crypto.randomBytes] *)
  origin : jsstring;                        (* [window.location.origin] *)
  currentOrgId : option jsstring;           (* [currentOrg?.id] *)
  storeResponse : Payload -> Outcome jsstring  (* the store's answer: an id, or a rejection *)
}.

(** A computation reads and writes the world and returns or throws; the
    world is kept when it throws. *)
Definition M (A : Type) : Type := World -> Outcome A * World.

Definition ret {A : Type} (a : A) : M A := fun w => (Ok a, w).

Definition bind {A B : Type} (c : M A) (k : A -> M B) : M B :=
  fun w =>
    match c w with
    | (Ok a, w') => k a w'
    | (Throw e, w') => (Throw e, w')
    end.

Definition throw {A : Type} (e : Exn) : M A := fun w => (Throw e, w).

Definition try_catch {A : Type} (body : M A) (handler : Exn -> M A) : M A :=
  fun w =>
    match body w with
    | (Ok a, w') => (Ok a, w')
    | (Throw e, w') => handler e w'
    end.

Definition lift {A : Type} (o : Outcome A) : M A := fun w => (o, w).

Notation "'let*' x ':=' c 'in' k" := (bind c (fun x => k))
  (at level 10, x pattern, c at level 100, k at level 200).

Definition emit (e : Event) : M unit :=
  fun w => (Ok tt, {| dates := dates w; drawn := drawn w; sealings := sealings w;
                      trace := trace w ++ [e] |}).

Definition randomBytes (env : Env) (n : nat) : M (list byte) :=
  fun w => (Ok (map (entropy env) (seq (drawn w) n)),
            {| dates := dates w; drawn := (drawn w + n)%nat; sealings := sealings w;
               trace := trace w |}).

Definition count_sealing : M unit :=
  fun w => (Ok tt, {| dates := dates w; drawn := drawn w; sealings := S (sealings w);
                      trace := trace w |}).

(** ** Date objects *)

Section DateObjects.
Context {platform : Platform}.
Import Time.

Definition LocalTime (t : Z) : Z := t + LocalTZA t true.

(** UTC(t): NaN when [t] is not finite.  MakeDate gives it an integer; for
    a fraction the offset is that of the millisecond the time falls in. *)
Definition UTC (t : Number) : Number :=
  match t with
  | Int t => Int (t - LocalTZA t false)
  | Frac m e => num_add t (Int (- LocalTZA (m / 2 ^ Z.pos e) false))
  | _ => NaN
  end.

(** [new Date()]: a fresh object holding the current time. *)
Definition new_Date (env : Env) : M loc :=
  fun w => (Ok (length (dates w)),
            {| dates := dates w ++ [Int (now env)]; drawn := drawn w;
               sealings := sealings w; trace := trace w |}).

(** thisTimeValue: the [[DateValue]] slot; a receiver that is no Date object
    is a TypeError. *)
Definition thisTimeValue (this : loc) : M Number :=
  fun w =>
    match dates w !! this with
    | Some tv => (Ok tv, w)
    | None => (Throw TypeError, w)
    end.

Definition setDateValue (this : loc) (u : Number) : M unit :=
  fun w => (Ok tt, {| dates := <[this := u]> (dates w); drawn := drawn w;
                      sealings := sealings w; trace := trace w |}).

(** The millisecond a finite time falls in: its fields are the fields of the
    time.  (The slot of a Date object holds NaN or an integer, [new Date()]
    and TimeClip put nothing else there.) *)
Definition millisecond (tv : Number) : option Z :=
  match tv with
  | Int t => Some t
  | Frac m e => Some (m / 2 ^ Z.pos e)
  | _ => None
  end.

Definition getMinutes (this : loc) : M Number :=
  let* tv := thisTimeValue this in
  match millisecond tv with
  | Some t => ret (Int (MinFromTime (LocalTime t)))
  | None => ret NaN
  end.

Definition getHours (this : loc) : M Number :=
  let* tv := thisTimeValue this in
  match millisecond tv with
  | Some t => ret (Int (HourFromTime (LocalTime t)))
  | None => ret NaN
  end.

Definition getDate (this : loc) : M Number :=
  let* tv := thisTimeValue this in
  match millisecond tv with
  | Some t => ret (Int (DateFromTime (LocalTime t)))
  | None => ret NaN
  end.

(** [setMinutes(min)], [setHours(hour)], [setDate(date)] with one argument:
    nothing is done to an invalid Date; otherwise rebuild the local time with
    the one field replaced, convert to UTC, clip, store the result in the
    object and return it. *)
Definition setMinutes (this : loc) (min : Number) : M Number :=
  let* tv := thisTimeValue this in
  match tv with
  | NaN => ret NaN
  | _ =>
      let u :=
        match millisecond tv with
        | Some t0 =>
            let t := LocalTime t0 in
            let date := MakeDate (Int (Day t))
                          (MakeTime (Int (HourFromTime t)) min (Int (SecFromTime t))
                                    (Int (msFromTime t))) in
            TimeClip (UTC date)
        | None => NaN
        end in
      let* _ := setDateValue this u in
      ret u
  end.

Definition setHours (this : loc) (hour : Number) : M Number :=
  let* tv := thisTimeValue this in
  match tv with
  | NaN => ret NaN
  | _ =>
      let u :=
        match millisecond tv with
        | Some t0 =>
            let t := LocalTime t0 in
            let date := MakeDate (Int (Day t))
                          (MakeTime hour (Int (MinFromTime t)) (Int (SecFromTime t))
                                    (Int (msFromTime t))) in
            TimeClip (UTC date)
        | None => NaN
        end in
      let* _ := setDateValue this u in
      ret u
  end.

Definition setDate (this : loc) (date : Number) : M Number :=
  let* tv := thisTimeValue this in
  match tv with
  | NaN => ret NaN
  | _ =>
      let u :=
        match millisecond tv with
        | Some t0 =>
            let t := LocalTime t0 in
            let newDate :=
              MakeDate (MakeDay (Int (YearFromTime t)) (Int (MonthFromTime t)) date)
                       (Int (TimeWithinDay t)) in
            TimeClip (UTC newDate)
        | None => NaN
        end in
      let* _ := setDateValue this u in
      ret u
  end.

End DateObjects.

(** ** The module AddShareSecretModal.tsx *)

Section AddShareSecretModal.
Context {platform : Platform}.

Record UnitAction : Type := {
  item_unit : jsstring;
  item_action : loc -> Number -> M Number
}.

Definition expirationUnitsAndActions : list UnitAction := [
  {| item_unit := str "Minutes";
     item_action := fun expiresAt expiresInValue =>
       let* m := getMinutes expiresAt in
       setMinutes expiresAt (num_add m expiresInValue) |};
  {| item_unit := str "Hours";
     item_action := fun expiresAt expiresInValue =>
       let* h := getHours expiresAt in
       setHours expiresAt (num_add h expiresInValue) |};
  {| item_unit := str "Days";
     item_action := fun expiresAt expiresInValue =>
       let* d := getDate expiresAt in
       setDate expiresAt (num_add d expiresInValue) |};
  {| item_unit := str "Weeks";
     item_action := fun expiresAt expiresInValue =>
       let* d := getDate expiresAt in
       setDate expiresAt (num_add d (num_mul expiresInValue (Int 7))) |}
].

(** *** The schema

    A field of the submitted form is absent ([None], JavaScript's
    [undefined]) or holds a value of the field's type; the number fields
    hold the number yup's cast produced, NaN when the text was no number. *)
Record RawForm : Type := {
  raw_value : option jsstring;
  raw_expiresAfterViews : option Number;
  raw_expiresInValue : option Number;
  raw_expiresInUnit : option jsstring
}.

(** [FormData = yup.InferType<typeof schema>].  [form_expiresAfterViews] is
    the field [expiresAfterViews]; the plain name is that of the key of the
    record sent to the store. *)
Record FormData : Type := {
  value : jsstring;
  form_expiresAfterViews : Number;
  expiresInValue : Number;
  expiresInUnit : jsstring
}.

Inductive Test : Type := test_typeError | test_required | test_max | test_min.

Record ValidationError : Type := {
  err_label : jsstring;
  err_test : Test
}.

(** yup's tests.  [max] and [min] pass on an absent value; [required]
    fails on an absent value and, for a string, on the empty string; a
    number that is NaN fails the type check and no other test is run.  [min]
    compares numbers: there is no test for an integer, so a fraction of at
    least 1 and the positive infinity pass. *)
Definition string_max (n : Z) (v : option jsstring) : bool :=
  match v with
  | Some s => Z.of_nat (length s) <=? n
  | None => true
  end.

Definition string_required (v : option jsstring) : bool :=
  match v with
  | Some (_ :: _) => true
  | _ => false
  end.

Definition number_typed (v : option Number) : bool :=
  match v with
  | Some NaN => false
  | _ => true
  end.

Definition number_min (n : Z) (v : option Number) : bool :=
  match v with
  | Some (Int z) => n <=? z
  | Some (Frac m e) => at_least n (Frac m e)
  | Some (Infinity negative) => negb negative
  | _ => true
  end.

Definition number_required (v : option Number) : bool :=
  match v with
  | Some _ => true
  | None => false
  end.

(** The errors of one field: its label with every test that fails. *)
Definition field_errors (label : string) (tests : list (Test * bool)) : list ValidationError :=
  map (fun t => {| err_label := str label; err_test := fst t |})
      (List.filter (fun t => negb (snd t)) tests).

Definition number_tests (n : Z) (v : option Number) : list (Test * bool) :=
  if number_typed v
  then [(test_min, number_min n v); (test_required, number_required v)]
  else [(test_typeError, false)].

Definition schema (raw : RawForm) : list ValidationError :=
  field_errors "Shared Secret Value"
    [(test_max, string_max 10000 (raw_value raw));
     (test_required, string_required (raw_value raw))]
  ++ field_errors "Expires After Views" (number_tests 1 (raw_expiresAfterViews raw))
  ++ field_errors "Expiration Value" (number_tests 1 (raw_expiresInValue raw))
  ++ field_errors "Expiration Unit"
       [(test_required, string_required (raw_expiresInUnit raw))].

(** [yupResolver(schema)]: the typed form data, or the errors. *)
Definition resolver (raw : RawForm) : list ValidationError + FormData :=
  match schema raw, raw_value raw, raw_expiresAfterViews raw,
        raw_expiresInValue raw, raw_expiresInUnit raw with
  | [], Some v, Some views, Some n, Some u =>
      inr {| value := v; form_expiresAfterViews := views;
             expiresInValue := n; expiresInUnit := u |}
  | errs, _, _, _, _ => inl errs
  end.

(** *** The handler *)

(** Modelled from the spec: [encryptSymmetric] of
    [@app/components/utilities/cryptography/crypto], which is not under
    src/.  Section 4.2: one authenticated-encryption call over the plaintext
    under the key gives ciphertext, iv and tag, with the iv drawn from the
    random source at each call. *)
Definition encryptSymmetric (env : Env) (plaintext key : jsstring) : M Cipher.Sealed :=
  let* nonce := randomBytes env ivLength in
  let* _ := count_sealing in
  ret (seal plaintext key nonce).

(** [err?.response?.status === code]: only an error that carries a response
    has a status. *)
Definition response_status_is (err : Exn) (code : Z) : bool :=
  match err with
  | AxiosError (Some status) => status =? code
  | _ => false
  end.

Definition has_id (o : option jsstring) : bool :=
  match o with
  | Some (_ :: _) => true
  | _ => false
  end.

Definition onFormSubmit (env : Env) (data : FormData) : M unit :=
  try_catch
    (if negb (has_id (currentOrgId env)) then ret tt
     else
       let* bytes := randomBytes env 16 in
       let key := toString_hex bytes in
       let hashedHex := toString_hex (SHA256.sha256 (utf8_bytes key)) in
       let* c := encryptSymmetric env (value data) key in
       let* expiresAt := new_Date env in
       let updateExpiresAt :=
         option_map item_action
           (List.find (fun item => jsstring_eqb (item_unit item) (expiresInUnit data))
                      expirationUnitsAndActions) in
       let* _ :=
         match updateExpiresAt with
         | Some update =>
             if truthy (expiresInValue data)
             then let* _ := update expiresAt (expiresInValue data) in ret tt
             else ret tt
         | None => ret tt
         end in
       let* tv := thisTimeValue expiresAt in
       let payload :=
         {| encryptedValue := Cipher.ciphertext c;
            iv := Cipher.iv c;
            tag := Cipher.tag c;
            hashedHex := hashedHex;
            expiresAt := tv;
            expiresAfterViews := form_expiresAfterViews data |} in
       let* _ := emit (MutateAsync payload) in
       let* id := lift (storeResponse env payload) in
       let* v := lift (encodeURIComponent hashedHex) in
       let* k := lift (encodeURIComponent key) in
       let* _ := emit (SetNewSharedSecret
                         (origin env ++ str "/shared/secret/" ++ id ++ str "?key="
                          ++ v ++ str "-" ++ k)) in
       emit (CreateNotification (str "Successfully created a shared secret")
                                (str "success")))
    (fun err =>
       let* _ := emit (ConsoleError err) in
       if response_status_is err 401
       then emit (CreateNotification (str "You do not have access to create shared secrets")
                                     (str "error"))
       else emit (CreateNotification (str "Failed to create a shared secret") (str "error"))).

(** [handleSubmit(onFormSubmit)] of react-hook-form: the handler runs only
    on a form the resolver accepts; otherwise the errors are shown. *)
Inductive SubmitResult : Type :=
| Invalid (errors : list ValidationError)
| Submitted.

Definition handleSubmit (env : Env) (raw : RawForm) : M SubmitResult :=
  match resolver raw with
  | inl errors => ret (Invalid errors)
  | inr data => let* _ := onFormSubmit env data in ret Submitted
  end.

End AddShareSecretModal.

(** ** Closed forms used in the statements *)

(** The world in which a fresh Date object holds the value [tv]. *)
Definition with_date (w : World) (tv : Number) : World :=
  {| dates := dates w ++ [tv]; drawn := drawn w; sealings := sealings w; trace := trace w |}.

Section ClosedForms.
Context {platform : Platform}.
Import Time.

(** The length of a unit of the table, in milliseconds of local time. *)
Definition unitLength (u : jsstring) : option Z :=
  if jsstring_eqb (str "Minutes") u then Some msPerMinute
  else if jsstring_eqb (str "Hours") u then Some msPerHour
  else if jsstring_eqb (str "Days") u then Some msPerDay
  else if jsstring_eqb (str "Weeks") u then Some (7 * msPerDay)
  else None.

(** Wall-clock addition: [n] units after [now] on the local clock, as a
    time value. *)
Definition local_plus (now len n : Z) : Number :=
  TimeClip (UTC (Int (LocalTime now + n * len))).

(** The field of the local time [t] that the action of a unit reads and
    sets, the length of one step of that field, and the number the action
    adds to it. *)
Definition unitField (u : jsstring) (t : Z) : Z :=
  if jsstring_eqb (str "Minutes") u then MinFromTime t
  else if jsstring_eqb (str "Hours") u then HourFromTime t
  else DateFromTime t.

Definition fieldLength (u : jsstring) : Z :=
  if jsstring_eqb (str "Minutes") u then msPerMinute
  else if jsstring_eqb (str "Hours") u then msPerHour
  else msPerDay.

Definition addend (u : jsstring) (v : Number) : Number :=
  if jsstring_eqb (str "Weeks") u then num_mul v (Int 7) else v.

(** The setter takes the integer part of the sum it is given: a value that
    is no integer moves the field by whole steps, and an infinite value
    leaves an invalid Date. *)
Definition local_plus_number (now : Z) (u : jsstring) (v : Number) : Number :=
  let field := unitField u (LocalTime now) in
  match ToInteger (num_add (Int field) (addend u v)) with
  | Some a => local_plus now (fieldLength u) (a - field)
  | None => NaN
  end.

(** What the Date object of a submission holds when the store is called. *)
Definition expiry (now : Z) (u : jsstring) (v : Number) : Number :=
  match unitLength u, v with
  | Some len, Int n => if n =? 0 then Int now else local_plus now len n
  | Some len, NaN => Int now
  | Some len, v => if truthy v then local_plus_number now u v else Int now
  | None, _ => Int now
  end.

(** The clocks, hosts and values for which the integer sums of the Date
    methods are exact in the arithmetic of the code: the clock is a time
    value, the offset of local time is at most a day, and the time added is
    at most 2^53 ms less a day.  Every sum of MakeTime is then at most 2^53
    in magnitude, the product of MakeDate is a multiple of 2^10 below 2^63,
    which is a double, and a sum of MakeDate beyond 2^53 is beyond the range
    of Date in either arithmetic. *)
Definition exact_for (now n len : Z) : Prop :=
  Z.abs now <= maxTime
  /\ (forall t b, Z.abs (LocalTZA t b) <= msPerDay)
  /\ Z.abs (n * len) <= 2 ^ 53 - msPerDay.

(** The link format of the spec, section 6. *)
Definition shareLink (origin id verifier rawKey : jsstring) : jsstring :=
  origin ++ str "/shared/secret/" ++ id ++ str "?key=" ++ verifier ++ str "-" ++ rawKey.

(** The key material of a submission that starts in world [w]. *)
Definition rawKey (env : Env) (w : World) : jsstring :=
  toString_hex (map (entropy env) (seq (drawn w) 16)).

Definition verifier (env : Env) (w : World) : jsstring :=
  toString_hex (SHA256.sha256 (utf8_bytes (rawKey env w))).

Definition sealed (env : Env) (data : FormData) (w : World) : Cipher.Sealed :=
  seal (value data) (rawKey env w)
       (map (entropy env) (seq (drawn w + 16)%nat ivLength)).

Definition storedPayload (env : Env) (data : FormData) (w : World) : Payload :=
  {| encryptedValue := Cipher.ciphertext (sealed env data w);
     iv := Cipher.iv (sealed env data w);
     tag := Cipher.tag (sealed env data w);
     hashedHex := verifier env w;
     expiresAt := expiry (now env) (expiresInUnit data) (expiresInValue data);
     expiresAfterViews := form_expiresAfterViews data |}.

(** The calls of the [catch] block for the error [e]. *)
Definition failureEvents (e : Exn) : list Event :=
  [ConsoleError e;
   if response_status_is e 401
   then CreateNotification (str "You do not have access to create shared secrets") (str "error")
   else CreateNotification (str "Failed to create a shared secret") (str "error")].

(** The calls of a submission that reaches the store. *)
Definition submitEvents (env : Env) (data : FormData) (w : World) : list Event :=
  MutateAsync (storedPayload env data w) ::
  match storeResponse env (storedPayload env data w) with
  | Ok id =>
      [SetNewSharedSecret (shareLink (origin env) id (verifier env w) (rawKey env w));
       CreateNotification (str "Successfully created a shared secret") (str "success")]
  | Throw e => failureEvents e
  end.

(** The world after such a submission. *)
Definition submitted (env : Env) (data : FormData) (w : World) : World :=
  {| dates := dates w ++ [expiry (now env) (expiresInUnit data) (expiresInValue data)];
     drawn := (drawn w + 16 + ivLength)%nat;
     sealings := S (sealings w);
     trace := trace w ++ submitEvents env data w |}.

(** The calls a computation adds to the trace when it runs in [w]. *)
Definition events_of {A : Type} (c : M A) (w : World) : list Event :=
  drop (length (trace w)) (trace (snd (c w))).

(** The events the storage tier sees, and the events other than the link. *)
Definition storage_view (tr : list Event) : list Payload :=
  omap (fun e => match e with MutateAsync p => Some p | _ => None end) tr.

Definition is_link (e : Event) : bool :=
  match e with
  | SetNewSharedSecret _ => true
  | _ => false
  end.

Definition without_link (tr : list Event) : list Event :=
  List.filter (fun e => negb (is_link e)) tr.

(** Two submissions that agree on everything the handler reads except the
    plaintext and the random source. *)
Definition same_public (env1 env2 : Env) (d1 d2 : FormData) : Prop :=
  now env1 = now env2
  /\ origin env1 = origin env2
  /\ currentOrgId env1 = currentOrgId env2
  /\ storeResponse env1 = storeResponse env2
  /\ form_expiresAfterViews d1 = form_expiresAfterViews d2
  /\ expiresInValue d1 = expiresInValue d2
  /\ expiresInUnit d1 = expiresInUnit d2.

End ClosedForms.

(** ** Sentences of the spec that the code does not satisfy as written

    Each is stated here as the spec has it and refuted below; the theorem of
    the same claim states what the code does. *)

(** Section 4.3: for a recognised unit and an integer value of at least 1
    the expiry is the instant [value] units after now on the local clock. *)
Definition expiry_for_every_value : Prop :=
  forall (platform : Platform) (env : Env) (data : FormData) (w : World) (len n : Z),
    has_id (currentOrgId env) = true ->
    unitLength (expiresInUnit data) = Some len ->
    expiresInValue data = Int n ->
    1 <= n ->
    map expiresAt (storage_view (events_of (onFormSubmit env data) w))
    = [UTC (Int (LocalTime (now env) + n * len))].

(** Section 4.3: a unit outside the table fails the computation, so no
    expiry is produced for it. *)
Definition unknown_unit_is_rejected : Prop :=
  forall (platform : Platform) (env : Env) (raw : RawForm) (w : World) (u : jsstring),
    raw_expiresInUnit raw = Some u ->
    unitLength u = None ->
    storage_view (events_of (handleSubmit env raw) w) = [].

(** Claim C10: the expiry sent to the store is always a concrete
    timestamp. *)
Definition every_record_has_a_timestamp : Prop :=
  forall (platform : Platform) (env : Env) (raw : RawForm) (w : World) (p : Payload),
    In p (storage_view (events_of (handleSubmit env raw) w)) ->
    exists t : Z, expiresAt p = Int t.

(** Section 9: computing the expiry does not change a Date object. *)
Definition actions_do_not_mutate : Prop :=
  forall (platform : Platform) (item : UnitAction) (this : loc) (v : Number) (w : World),
    In item expirationUnitsAndActions ->
    dates (snd (item_action item this v w)) = dates w.

(** What an action of the table does: it writes to the Date object it is
    given and to nothing else, allocates nothing, and returns the time value
    that object then holds. *)
Definition updates_in_place (act : loc -> Number -> M Number) : Prop :=
  forall (this : loc) (v : Number) (w : World),
    drawn (snd (act this v w)) = drawn w
    /\ sealings (snd (act this v w)) = sealings w
    /\ trace (snd (act this v w)) = trace w
    /\ length (dates (snd (act this v w))) = length (dates w)
    /\ (forall l : loc, l <> this -> dates (snd (act this v w)) !! l = dates w !! l)
    /\ (forall u : Number, fst (act this v w) = Ok u ->
                           dates (snd (act this v w)) !! this = Some u).

(** ** The record store and its redemption (spec, sections 3, 4.5 and 5)

    The store is on the server and no file under src/ implements it; this
    module follows the words of the spec. *)

Module Store.

Inductive Status : Type := ACTIVE | EXPIRED | EXHAUSTED | REVOKED.

Record ShareRecord : Type := {
  encryptedPayload : Cipher.Sealed;
  verifier : jsstring;
  expiresAt : option Z;        (* [None]: no time limit *)
  maxViews : option Z;         (* [None]: unlimited by count *)
  viewsConsumed : Z;
  status : Status
}.

Inductive RedemptionError : Type := NotFound | Expired | VerifierMismatch.

Definition is_active (s : Status) : bool :=
  match s with
  | ACTIVE => true
  | _ => false
  end.

(** [now > expiresAt], false without a time limit. *)
Definition past (now : Z) (e : option Z) : bool :=
  match e with
  | Some t => t <? now
  | None => false
  end.

(** The new count reaches [maxViews], false without a limit by count. *)
Definition reaches (count : Z) (m : option Z) : bool :=
  match m with
  | Some n => n <=? count
  | None => false
  end.

(** Modelled from the spec: [ShareRecordStore.redeem], which is not under
    src/.  Section 4.5, steps (1) to (5), as one function of the store: the
    record is loaded, checked, and the incremented record with its new status
    is written in the same step; the caller receives the record as it was
    before the increment. *)
Definition redeem (now : Z) (id : nat) (suppliedVerifier : jsstring)
    (store : gmap nat ShareRecord) : (RedemptionError + ShareRecord) * gmap nat ShareRecord :=
  match store !! id with
  | None => (inl NotFound, store)
  | Some r =>
      if negb (is_active (status r)) || past now (expiresAt r) then (inl Expired, store)
      else if negb (jsstring_eqb suppliedVerifier (verifier r)) then (inl VerifierMismatch, store)
      else
        let count := viewsConsumed r + 1 in
        (inr r,
         <[id := {| encryptedPayload := encryptedPayload r;
                    verifier := verifier r;
                    expiresAt := expiresAt r;
                    maxViews := maxViews r;
                    viewsConsumed := count;
                    status := if reaches count (maxViews r) then EXHAUSTED else ACTIVE |}]>
           store)
  end.

(** A redemption request: the clock it reads and the verifier it supplies. *)
Record Request : Type := {
  req_now : Z;
  req_verifier : jsstring
}.

(** Redemptions one after the other, in the order of the list. *)
Fixpoint redeem_all (id : nat) (reqs : list Request) (store : gmap nat ShareRecord)
    : list (RedemptionError + ShareRecord) :=
  match reqs with
  | [] => []
  | q :: rest =>
      fst (redeem (req_now q) id (req_verifier q) store)
      :: redeem_all id rest (snd (redeem (req_now q) id (req_verifier q) store))
  end.

(** Concurrent redemptions of one record.  Section 5 requires the
    check-increment-transition to be one atomic unit, so an interleaving is
    an order in which the pending requests take their atomic step: at each
    step any pending request may be the next. *)
Record Config : Type := {
  pending : list Request;
  store : gmap nat ShareRecord;
  outcomes : list (RedemptionError + ShareRecord)
}.

Inductive step (id : nat) : Config -> Config -> Prop :=
| step_redeem (before after : list Request) (q : Request)
              (st : gmap nat ShareRecord) (outs : list (RedemptionError + ShareRecord)) :
    step id
      {| pending := before ++ q :: after; store := st; outcomes := outs |}
      {| pending := before ++ after;
         store := snd (redeem (req_now q) id (req_verifier q) st);
         outcomes := outs ++ [fst (redeem (req_now q) id (req_verifier q) st)] |}.

Definition succeeded (o : RedemptionError + ShareRecord) : bool :=
  match o with
  | inr _ => true
  | inl _ => false
  end.

Definition successes (outs : list (RedemptionError + ShareRecord)) : nat :=
  length (List.filter succeeded outs).

(** A request that carries the verifier of the record and is made before the
    record expires. *)
Definition in_time (r : ShareRecord) (q : Request) : Prop :=
  req_verifier q = verifier r /\ past (req_now q) (expiresAt r) = false.

(** The record under [id] after [k] requests in time, on a budget of [n]
    views: it has counted [min k n] views and is active while [k < n]. *)
Definition consumed (n : Z) (r0 : ShareRecord) (id : nat) (k : Z)
    (st : gmap nat ShareRecord) : Prop :=
  exists r : ShareRecord,
    st !! id = Some r
    /\ verifier r = verifier r0
    /\ expiresAt r = expiresAt r0
    /\ maxViews r = Some n
    /\ viewsConsumed r = Z.min k n
    /\ status r = (if k <? n then ACTIVE else EXHAUSTED).

End Store.

(** ** Two platforms for the examples *)

(** A stand-in for the cipher, used to run the handler on concrete inputs:
    the UTF-8 bytes of the plaintext are combined with a pad derived from key
    and nonce; the tag is a digest over key, nonce and ciphertext. *)
Definition xor_byte (a b : byte) : byte := octet (Z.lxor (byte_val a) (byte_val b)).

Definition standin_seal (plaintext key : jsstring) (nonce : list byte) : Cipher.Sealed :=
  let pad := SHA256.sha256 (utf8_bytes key ++ nonce) in
  let ct := imap (fun i b => xor_byte b (List.nth (i mod 32)%nat pad Byte.x00))
                 (utf8_bytes plaintext) in
  {| Cipher.ciphertext := toString_hex ct;
     Cipher.iv := toString_hex nonce;
     Cipher.tag := toString_hex (SHA256.sha256 (utf8_bytes key ++ nonce ++ ct)) |}.

(** A host on UTC. *)
Definition utc_platform : Platform :=
  {| LocalTZA := fun _ _ => 0; seal := standin_seal; ivLength := 16 |}.

(** A host on Central European Time in 2024: UTC+1, and UTC+2 from
    2024-03-31T01:00Z up to 2024-10-27T01:00Z.  For a local time (second
    argument [false]) a time skipped or repeated by a transition is read
    with the offset in force before the transition. *)
Definition cet_2024 (t : Z) (isUTC : bool) : Z :=
  let start := 1711846800000 in
  let stop := 1729990800000 in
  if isUTC then
    if (start <=? t) && (t <? stop) then 7200000 else 3600000
  else
    if (start + 7200000 <=? t) && (t <? stop + 7200000) then 7200000 else 3600000.

Definition cet_platform : Platform :=
  {| LocalTZA := cet_2024; seal := standin_seal; ivLength := 16 |}.

(** ** Inputs for the examples *)

Definition empty_world : World :=
  {| dates := []; drawn := 0; sealings := 0; trace := [] |}.

(** Noon UTC on 20 January 2024, an organisation selected, a store that
    accepts every record under the same id. *)
Definition example_env : Env :=
  {| now := 1705752000000;
     entropy := fun i => octet ((Z.of_nat i * 37 + 11) mod 256);
     origin := str "https://app.example.com";
     currentOrgId := Some (str "org-1");
     storeResponse := fun _ => Ok (str "7c9e6679") |}.

(** The form with plaintext [v], one view and one hour. *)
Definition example_secret (v : jsstring) : FormData :=
  {| value := v;
     form_expiresAfterViews := Int 1;
     expiresInValue := Int 1;
     expiresInUnit := str "Hours" |}.

Definition example_env_at (t : Z) : Env :=
  {| now := t;
     entropy := entropy example_env;
     origin := origin example_env;
     currentOrgId := currentOrgId example_env;
     storeResponse := storeResponse example_env |}.

Definition example_form (v : jsstring) (views n : Z) (u : string) : RawForm :=
  {| raw_value := Some v;
     raw_expiresAfterViews := Some (Int views);
     raw_expiresInValue := Some (Int n);
     raw_expiresInUnit := Some (str u) |}.

(** A plaintext of 10001 code units. *)
Definition long_plaintext : jsstring := repeat 97 (Z.to_nat 10001).

Definition example_data (u : string) (n : Z) : FormData :=
  {| value := str "hello";
     form_expiresAfterViews := Int 1;
     expiresInValue := Int n;
     expiresInUnit := str u |}.

(** The record of the example submission with one view allowed, and two
    requests for it made one and two seconds after its creation. *)
Definition example_record : Store.ShareRecord :=
  {| Store.encryptedPayload :=
       sealed (platform := utc_platform) example_env (example_secret (str "hello")) empty_world;
     Store.verifier := verifier example_env empty_world;
     Store.expiresAt := Some (now example_env + Time.msPerHour);
     Store.maxViews := Some 1;
     Store.viewsConsumed := 0;
     Store.status := Store.ACTIVE |}.

Definition example_requests : list Store.Request :=
  [{| Store.req_now := now example_env + 1000;
      Store.req_verifier := verifier example_env empty_world |};
   {| Store.req_now := now example_env + 2000;
      Store.req_verifier := verifier example_env empty_world |}].

(** ** The state of the modal *)

(** [Boolean(newSharedSecret)], which chooses between the form and the link
    view: a string is truthy when it is not empty. *)
Definition hasSharedSecret (newSharedSecret : jsstring) : bool :=
  match newSharedSecret with
  | [] => false
  | _ :: _ => true
  end.

(** The state [newSharedSecret] after the calls of [tr]: the argument of the
    last [setnewSharedSecret], or what the state held before. *)
Definition newSharedSecret_after (before : jsstring) (tr : list Event) : jsstring :=
  fold_left (fun s e => match e with SetNewSharedSecret link => link | _ => s end) tr before.

(** The form data [data] with another expiration. *)
Definition with_expiration (data : FormData) (u : jsstring) (v : Number) : FormData :=
  {| value := value data;
     form_expiresAfterViews := form_expiresAfterViews data;
     expiresInValue := v;
     expiresInUnit := u |}.

(** The expiries of the records a computation sends to the store. *)
Definition stored_expiries {A : Type} (c : M A) (w : World) : list Number :=
  map expiresAt (storage_view (events_of c w)).


(** The state of the modal that the callbacks of lines 87-95 and 158-162
    read and write: the link, the flag of the copy icon, and what was last
    passed to [navigator.clipboard.writeText]. *)
Record ModalState : Type := {
  newSharedSecret : jsstring;
  isUrlCopied : bool;
  clipboard : option jsstring
}.

Definition copyUrlToClipboard (m : ModalState) : ModalState :=
  {| newSharedSecret := newSharedSecret m;
     isUrlCopied := true;
     clipboard := Some (newSharedSecret m) |}.

(** The callback of [useEffect] when its timer of 2000 ms fires. *)
Definition copied_timer (m : ModalState) : ModalState :=
  {| newSharedSecret := newSharedSecret m;
     isUrlCopied := false;
     clipboard := clipboard m |}.

(** [onOpenChange]: of its three calls, [setnewSharedSecret("")] is the one
    that writes to this state; [handlePopUpToggle] and [reset] act on the
    pop-up and on the form. *)
Definition onOpenChange (m : ModalState) : ModalState :=
  {| newSharedSecret := [];
     isUrlCopied := isUrlCopied m;
     clipboard := clipboard m |}.

(** The state after a submission that made the calls [tr]. *)
Definition after_submission (m : ModalState) (tr : list Event) : ModalState :=
  {| newSharedSecret := newSharedSecret_after (newSharedSecret m) tr;
     isUrlCopied := isUrlCopied m;
     clipboard := clipboard m |}.

(** ** The module UpgradeProjectAlert.tsx *)

Module UpgradeProjectAlert.

(** The two [useState] cells and their setters. *)
Record State : Type := {
  currentStatus : option jsstring;    (* [string | null] *)
  isUpgrading : bool
}.

Inductive Setter : Type :=
| SetCurrentStatus (s : jsstring)
| SetIsUpgrading (b : bool).

(** The calls the two callbacks of the component make; the callback of
    [setTimeout] is the list of setters it calls. *)
Inductive Effect : Type :=
| SetState (u : Setter)
| RouterReload
| CreateNotification (type text : jsstring)
| MutateAsync (projectId privateKey : jsstring)
| Refetch
| SetTimeout (callback : list Setter) (delay : Z).

Definition set (st : State) (u : Setter) : State :=
  match u with
  | SetCurrentStatus s => {| currentStatus := Some s; isUpgrading := isUpgrading st |}
  | SetIsUpgrading b => {| currentStatus := currentStatus st; isUpgrading := b |}
  end.

(** The state after the calls of a callback: only the setters change it. *)
Definition apply (st : State) (e : Effect) : State :=
  match e with
  | SetState u => set st u
  | _ => st
  end.

Definition apply_all (st : State) (effects : list Effect) : State :=
  fold_left apply effects st.

(** The state after the timers scheduled by [effects] have fired. *)
Definition fire (st : State) (e : Effect) : State :=
  match e with
  | SetTimeout callback _ => fold_left set callback st
  | _ => st
  end.

Definition fire_all (st : State) (effects : list Effect) : State :=
  fold_left fire effects st.

(** [onSuccess] of the status query (lines 33-49).  [data] is [undefined]
    ([None]) or an object whose [status] is a string or [null]
    ([Some None]); [currentStatus] is the value the callback closes over. *)
Definition onSuccess (role : jsstring) (currentStatus : option jsstring)
    (data : option (option jsstring)) : list Effect :=
  if negb (jsstring_eqb role (str "admin")) then []
  else
    match data with
    | Some (Some status) =>
        if jsstring_eqb status (str "IN_PROGRESS")
        then [SetState (SetCurrentStatus (str "Your upgrade is being processed."))]
        else if jsstring_eqb status (str "FAILED")
        then [SetState (SetCurrentStatus (str "Upgrade failed, please try again."))]
        else []
    | _ => []
    end
    ++ match currentStatus, data with
       | Some _, Some None => [RouterReload]
       | _, _ => []
       end.

(** [onUpgradeProject] (lines 52-75).  [isLoading] is
    [upgradeProject.isLoading] and [projectId] is [project.id], as the
    callback closes over them; [PRIVATE_KEY] is what
    [localStorage.getItem("PRIVATE_KEY")] returns; [mutation] is the answer of
    [upgradeProject.mutateAsync].  The result is the calls made and whether
    the promise of the callback resolves or rejects. *)
Definition onUpgradeProject (isLoading : bool) (projectId : jsstring)
    (PRIVATE_KEY : option jsstring) (mutation : jsstring -> jsstring -> Outcome unit)
    : list Effect * Outcome unit :=
  if isLoading then ([], Ok tt)
  else
    match PRIVATE_KEY with
    | None | Some [] =>
        ([SetState (SetIsUpgrading true);
          CreateNotification (str "error") (str "Private key not found")], Ok tt)
    | Some key =>
        match mutation projectId key with
        | Ok _ =>
            ([SetState (SetIsUpgrading true); MutateAsync projectId key; Refetch;
              SetTimeout [SetIsUpgrading false] 5000], Ok tt)
        | Throw e => ([SetState (SetIsUpgrading true); MutateAsync projectId key], Throw e)
        end
    end.

Definition not_null (o : option jsstring) : bool :=
  match o with
  | Some _ => true
  | None => false
  end.

(** [projectStatus?.status === s]. *)
Definition status_is (projectStatus : option (option jsstring)) (s : string) : bool :=
  match projectStatus with
  | Some (Some status) => jsstring_eqb status (str s)
  | _ => false
  end.

(** [isLoading] (lines 77-82). *)
Definition isLoading (isUpgrading mutationIsLoading : bool) (currentStatus : option jsstring)
    (statusIsLoading : bool) (projectStatus : option (option jsstring)) : bool :=
  isUpgrading
  || ((mutationIsLoading
       || not_null currentStatus
       || (negb (not_null currentStatus) && statusIsLoading))
      && negb (status_is projectStatus "FAILED")).

(** Lines 84-85: the alert is rendered for version [V1] (the value of
    [ProjectVersion.V1], which is declared outside src/) and an admin. *)
Definition rendered (V1 version : Z) (role : jsstring) : bool :=
  (version =? V1) && jsstring_eqb role (str "admin").

End UpgradeProjectAlert.

(* ===================================================================== *)
(** * Theorems *)
(* ===================================================================== *)

Ltac div_lia := Z.to_euclidean_division_equations; lia.

(** ** The calendar of ECMA-262 *)

Module TimeFacts.
Import Time.

Lemma YearFromTime_spec t :
  DayFromYear (YearFromTime t) <= Day t < DayFromYear (YearFromTime t + 1).
Proof.
  unfold YearFromTime. generalize (Day t) as d. intros d. cbv zeta.
  set (y := 1970 + 400 * d / 146097).
  assert (Hy : 146097 * (y - 1970) <= 400 * d < 146097 * (y - 1970) + 146097)
    by (unfold y; div_lia).
  clearbody y.
  destruct (Z.leb_spec (DayFromYear (y + 1)) d) as [Hup | Hup].
  - split; [lia |]. unfold DayFromYear in *. div_lia.
  - destruct (Z.ltb_spec d (DayFromYear y)) as [Hlo | Hlo].
    + replace (y - 1 + 1) with y by lia. split; [| lia].
      unfold DayFromYear in *. div_lia.
    + lia.
Qed.

Lemma DayFromYear_succ y : DayFromYear (y + 1) = DayFromYear y + DaysInYear y.
Proof.
  unfold DayFromYear, DaysInYear.
  repeat match goal with |- context [negb (?a =? ?b)] => destruct (Z.eqb_spec a b); cbn [negb] end;
    div_lia.
Qed.

Lemma DayFromYear_mono y z : y <= z -> DayFromYear y <= DayFromYear z.
Proof. unfold DayFromYear. intros. div_lia. Qed.

(** [YearFromTime t] is the largest year that starts at or before [t]. *)
Lemma YearFromTime_largest t y :
  TimeFromYear y <= t <-> y <= YearFromTime t.
Proof.
  pose proof (YearFromTime_spec t) as [Hlo Hhi].
  unfold TimeFromYear. unfold Day, msPerDay in *.
  split; intros Hy.
  - destruct (Z_le_gt_dec y (YearFromTime t)) as [|Hgt]; [assumption | exfalso].
    assert (DayFromYear (YearFromTime t + 1) <= DayFromYear y) by (apply DayFromYear_mono; lia).
    div_lia.
  - pose proof (DayFromYear_mono _ _ Hy). div_lia.
Qed.

Lemma DayWithinYear_range t :
  0 <= DayWithinYear t < DaysInYear (YearFromTime t).
Proof.
  unfold DayWithinYear. pose proof (YearFromTime_spec t).
  rewrite DayFromYear_succ in *. lia.
Qed.

Lemma InLeapYear_cases t :
  InLeapYear t = DaysInYear (YearFromTime t) - 365 /\ (InLeapYear t = 0 \/ InLeapYear t = 1).
Proof.
  unfold InLeapYear, leapDays, DaysInYear.
  repeat match goal with |- context [negb (?a =? ?b)] => destruct (Z.eqb_spec a b); cbn [negb] end;
    cbn; lia.
Qed.

Lemma MonthFromTime_range t : 0 <= MonthFromTime t <= 11.
Proof.
  unfold MonthFromTime. cbv zeta.
  repeat match goal with |- context [?a <? ?b] => destruct (Z.ltb_spec a b) end; lia.
Qed.

Lemma DateFromTime_MonthStart t :
  DateFromTime t = DayWithinYear t - MonthStart (MonthFromTime t) (InLeapYear t) + 1.
Proof.
  unfold DateFromTime, MonthFromTime. cbv zeta.
  repeat match goal with |- context [?a <? ?b] => destruct (Z.ltb_spec a b) end;
    cbn [MonthStart]; lia.
Qed.

Lemma DateFromTime_range t : 1 <= DateFromTime t <= 31.
Proof.
  pose proof (DayWithinYear_range t) as Hd.
  pose proof (InLeapYear_cases t) as [Hl Hl01].
  unfold DateFromTime, MonthFromTime. cbv zeta.
  repeat match goal with |- context [?a <? ?b] => destruct (Z.ltb_spec a b) end; lia.
Qed.

Lemma Day_TimeWithinDay t : Day t * msPerDay + TimeWithinDay t = t.
Proof. unfold Day, TimeWithinDay, msPerDay. div_lia. Qed.

Lemma time_fields t :
  Day t * msPerDay + HourFromTime t * msPerHour + MinFromTime t * msPerMinute
  + SecFromTime t * msPerSecond + msFromTime t = t.
Proof.
  unfold Day, HourFromTime, MinFromTime, SecFromTime, msFromTime, msPerDay, msPerHour,
    msPerMinute, msPerSecond, HoursPerDay, MinutesPerHour, SecondsPerMinute.
  div_lia.
Qed.
Lemma YearFromTime_unique t y :
  DayFromYear y <= Day t < DayFromYear (y + 1) -> YearFromTime t = y.
Proof.
  intros [Hlo Hhi].
  pose proof (YearFromTime_spec t) as [Hlo' Hhi'].
  destruct (Z.lt_trichotomy (YearFromTime t) y) as [Hlt | [Heq | Hgt]]; [exfalso | assumption | exfalso].
  - pose proof (DayFromYear_mono (YearFromTime t + 1) y). lia.
  - pose proof (DayFromYear_mono (y + 1) (YearFromTime t)). lia.
Qed.

Lemma MonthStart_range mn y :
  0 <= mn <= 11 -> 0 <= MonthStart mn (leapDays y) < DaysInYear y.
Proof.
  intros Hmn. unfold leapDays, DaysInYear.
  assert (Hc : mn = 0 \/ mn = 1 \/ mn = 2 \/ mn = 3 \/ mn = 4 \/ mn = 5 \/ mn = 6 \/
               mn = 7 \/ mn = 8 \/ mn = 9 \/ mn = 10 \/ mn = 11) by lia.
  repeat match goal with |- context [negb (?a =? ?b)] => destruct (Z.eqb_spec a b); cbn [negb] end;
    cbn [Z.eqb Pos.eqb];
    repeat (destruct Hc as [-> | Hc]; [cbn; lia |]); subst; cbn; lia.
Qed.

Lemma Day_first_of_month ym mn l :
  Day (TimeFromYear ym + msPerDay * MonthStart mn l) = DayFromYear ym + MonthStart mn l.
Proof. unfold Day, TimeFromYear, msPerDay. div_lia. Qed.

(** The time value MakeDay picks is the one the standard asks for. *)
Lemma MakeDay_first_of_month ym mn :
  0 <= mn <= 11 ->
  let t := TimeFromYear ym + msPerDay * MonthStart mn (leapDays ym) in
  YearFromTime t = ym /\ MonthFromTime t = mn /\ DateFromTime t = 1.
Proof.
  intros Hmn t.
  pose proof (MonthStart_range mn ym Hmn) as Hr.
  assert (HD : Day t = DayFromYear ym + MonthStart mn (leapDays ym)) by apply Day_first_of_month.
  assert (HY : YearFromTime t = ym).
  { apply YearFromTime_unique. rewrite DayFromYear_succ. lia. }
  assert (HL : InLeapYear t = leapDays ym) by (unfold InLeapYear, leapDays; now rewrite HY).
  assert (HW : DayWithinYear t = MonthStart mn (leapDays ym)) by (unfold DayWithinYear; rewrite HY; lia).
  assert (HM : MonthFromTime t = mn).
  { unfold MonthFromTime. cbv zeta. rewrite HW, HL.
    assert (Hl : leapDays ym = 0 \/ leapDays ym = 1) by (unfold leapDays; destruct (_ =? _); lia).
    assert (Hc : mn = 0 \/ mn = 1 \/ mn = 2 \/ mn = 3 \/ mn = 4 \/ mn = 5 \/ mn = 6 \/
                 mn = 7 \/ mn = 8 \/ mn = 9 \/ mn = 10 \/ mn = 11) by lia.
    repeat (destruct Hc as [-> | Hc]; [cbn [MonthStart];
      repeat match goal with |- context [?a <? ?b] => destruct (Z.ltb_spec a b) end; lia |]).
    subst mn. cbn [MonthStart].
    repeat match goal with |- context [?a <? ?b] => destruct (Z.ltb_spec a b) end; lia. }
  split; [assumption | split; [assumption |]].
  rewrite DateFromTime_MonthStart, HW, HM, HL. lia.
Qed.

Lemma MakeDay_shift t v :
  MakeDay (Int (YearFromTime t)) (Int (MonthFromTime t)) (Int (DateFromTime t + v))
  = Int (Day t + v).
Proof.
  unfold MakeDay. cbn [ToInteger]. cbv zeta.
  pose proof (MonthFromTime_range t) as Hm.
  replace (MonthFromTime t / 12) with 0 by div_lia.
  replace (MonthFromTime t mod 12) with (MonthFromTime t) by div_lia.
  rewrite Z.add_0_r. fold (InLeapYear t).
  rewrite Day_first_of_month, DateFromTime_MonthStart. unfold DayWithinYear.
  f_equal. lia.
Qed.

Lemma setDate_local t v :
  MakeDate (MakeDay (Int (YearFromTime t)) (Int (MonthFromTime t)) (Int (DateFromTime t + v)))
           (Int (TimeWithinDay t))
  = Int (t + v * msPerDay).
Proof.
  rewrite MakeDay_shift. cbn [MakeDate finite andb num_add num_mul]. f_equal.
  pose proof (Day_TimeWithinDay t). lia.
Qed.

Lemma setMinutes_local t v :
  MakeDate (Int (Day t))
    (MakeTime (Int (HourFromTime t)) (Int (MinFromTime t + v)) (Int (SecFromTime t))
              (Int (msFromTime t)))
  = Int (t + v * msPerMinute).
Proof.
  cbn [MakeDate MakeTime ToInteger finite andb num_add num_mul]. f_equal.
  pose proof (time_fields t). lia.
Qed.

Lemma setHours_local t v :
  MakeDate (Int (Day t))
    (MakeTime (Int (HourFromTime t + v)) (Int (MinFromTime t)) (Int (SecFromTime t))
              (Int (msFromTime t)))
  = Int (t + v * msPerHour).
Proof.
  cbn [MakeDate MakeTime ToInteger finite andb num_add num_mul]. f_equal.
  pose proof (time_fields t). lia.
Qed.

(** The setters with any number for the new field: its integer part moves
    the local time by whole steps, and a number that is not finite gives
    NaN. *)
Lemma setMinutes_number t (x : Number) :
  MakeDate (Int (Day t))
    (MakeTime (Int (HourFromTime t)) x (Int (SecFromTime t)) (Int (msFromTime t)))
  = match ToInteger x with
    | Some a => Int (t + (a - MinFromTime t) * msPerMinute)
    | None => NaN
    end.
Proof.
  unfold MakeTime. cbn [ToInteger]. destruct (ToInteger x) as [a |]; [| reflexivity].
  cbn [MakeDate finite andb num_add num_mul]. f_equal. pose proof (time_fields t). lia.
Qed.

Lemma setHours_number t (x : Number) :
  MakeDate (Int (Day t))
    (MakeTime x (Int (MinFromTime t)) (Int (SecFromTime t)) (Int (msFromTime t)))
  = match ToInteger x with
    | Some a => Int (t + (a - HourFromTime t) * msPerHour)
    | None => NaN
    end.
Proof.
  unfold MakeTime. cbn [ToInteger]. destruct (ToInteger x) as [a |]; [| reflexivity].
  cbn [MakeDate finite andb num_add num_mul]. f_equal. pose proof (time_fields t). lia.
Qed.

Lemma setDate_number t (x : Number) :
  MakeDate (MakeDay (Int (YearFromTime t)) (Int (MonthFromTime t)) x) (Int (TimeWithinDay t))
  = match ToInteger x with
    | Some a => Int (t + (a - DateFromTime t) * msPerDay)
    | None => NaN
    end.
Proof.
  destruct (ToInteger x) as [a |] eqn:Hx.
  - rewrite <- (setDate_local t (a - DateFromTime t)).
    replace (DateFromTime t + (a - DateFromTime t)) with a by lia.
    unfold MakeDay. cbn [ToInteger]. now rewrite Hx.
  - unfold MakeDay. cbn [ToInteger]. now rewrite Hx.
Qed.

(** Known dates: 29 February 2024 and 2000, 1 March 2100 and 1900 (no leap
    years), 31 December 1600, and the last millisecond of 1969. *)
Example calendar_known_dates :
  map (fun t => (YearFromTime t, MonthFromTime t, DateFromTime t))
      [1709164800000; 951782400000; 4107542400000; -2203891200000; -11644560000000; -1]
  = [(2024, 1, 29); (2000, 1, 29); (2100, 2, 1); (1900, 2, 1); (1600, 11, 31); (1969, 11, 31)]
  /\ (HourFromTime (-1), MinFromTime (-1), SecFromTime (-1), msFromTime (-1))
     = (23, 59, 59, 999).
Proof. vm_compute. split; reflexivity. Qed.

End TimeFacts.

(** ** Rounding to a double *)

(** Sums and products known from the arithmetic of doubles: 0.1 + 0.2,
    0.1 * 0.1, 59 + 0.9999999999999999 (which is 60), 1.9 * 7, the half of the
    least positive double (which is 0) and one and a half times it, an
    overflow, -0.1 - 0.2, 0.1 + 0.7, and the ties at 2^53 + 1, 2^53 + 3 and
    -(2^53 + 1), which go to the even neighbour. *)
Example round_double_known :
  num_add (Frac 3602879701896397 55) (Frac 3602879701896397 54) = Frac 1351079888211149 52
  /\ num_mul (Frac 3602879701896397 55) (Frac 3602879701896397 55)
     = Frac 1441151880758559 57
  /\ num_add (Int 59) (Frac 9007199254740991 53) = Int 60
  /\ num_mul (Frac 4278419646001971 51) (Int 7) = Frac 7487234380503449 49
  /\ ToInteger (num_mul (Frac 4278419646001971 51) (Int 7)) = Some 13
  /\ num_mul (Frac 1 1074) (Frac 1 1) = Int 0
  /\ num_mul (Frac 1 1074) (Frac 3 1) = Frac 1 1073
  /\ round_double (10 ^ 309) 0 = Infinity false
  /\ num_add (Frac (-3602879701896397) 55) (Frac (-3602879701896397) 54)
     = Frac (-1351079888211149) 52
  /\ num_add (Frac 3602879701896397 55) (Frac 3152519739159347 52) = Frac 7205759403792793 53
  /\ round_double (2 ^ 53 + 1) 0 = Int (2 ^ 53)
  /\ round_double (2 ^ 53 + 3) 0 = Int (2 ^ 53 + 4)
  /\ round_double (- (2 ^ 53 + 1)) 0 = Int (- 2 ^ 53).
Proof. vm_compute. repeat split; reflexivity. Qed.

Lemma nearest_even_bounds m k : m / 2 ^ k <= nearest_even m k <= m / 2 ^ k + 1.
Proof.
  unfold nearest_even. cbv zeta.
  repeat destruct (_ <? _); try destruct (Z.even _); lia.
Qed.

Lemma lowest_terms_at_least c m j :
  at_least c (lowest_terms m j) = (c * 2 ^ Z.of_nat j <=? m).
Proof.
  revert m. induction j as [| j IH]; intros m.
  - cbn [lowest_terms at_least]. now rewrite Z.pow_0_r, Z.mul_1_r.
  - cbn [lowest_terms]. destruct (Z.even m) eqn:Hm.
    + rewrite IH. apply Z.even_spec in Hm as [h ->].
      rewrite Nat2Z.inj_succ, Z.pow_succ_r by lia.
      replace (2 * h / 2) with h by (now rewrite (Z.mul_comm 2 h), Z.div_mul).
      generalize (2 ^ Z.of_nat j). intros p.
      destruct (Z.leb_spec (c * p) h), (Z.leb_spec (c * (2 * p)) (2 * h));
        try reflexivity; lia.
    + cbn [at_least]. now rewrite Zpos_P_of_succ_nat, Nat2Z.inj_succ.
Qed.

(** Rounding is monotone at an integer that is a double: a quotient of at
    least [c] rounds to a number of at least [c]. *)
Lemma round_double_at_least c m e :
  0 <= c <= 2 ^ 53 -> 0 <= e -> c * 2 ^ e <= m -> at_least c (round_double m e) = true.
Proof.
  intros Hc He Hm. unfold round_double. cbv zeta.
  set (k := Z.max 0 (Z.max (Z.log2 (Z.abs m) - 52) (e - 1074))).
  assert (Hk : 0 <= k) by (unfold k; lia).
  pose proof (nearest_even_bounds m k) as [Hlo _].
  assert (H2e : 0 < 2 ^ e) by (apply Z.pow_pos_nonneg; lia).
  assert (H2k : 0 < 2 ^ k) by (apply Z.pow_pos_nonneg; lia).
  assert (Hm0 : 0 <= m) by nia.
  assert (Hq : 0 <= m / 2 ^ k) by (apply Z.div_pos; lia).
  destruct (_ <=? _).
  - cbn [at_least]. destruct (Z.ltb_spec (nearest_even m k) 0); [lia | reflexivity].
  - destruct (Z.leb_spec e k) as [Hek | Hek].
    + cbn [at_least]. apply Z.leb_le.
      destruct (Z.eq_dec k e) as [Heq | Hne].
      * rewrite Heq in *. rewrite Z.sub_diag, Z.pow_0_r, Z.mul_1_r.
        assert (c <= m / 2 ^ e) by (apply Z.div_le_lower_bound; lia). lia.
      * assert (Hkl : k = Z.log2 m - 52) by (unfold k in *; rewrite Z.abs_eq in * by lia; lia).
        assert (Hpos : 0 < m).
        { destruct (Z.le_gt_cases m 0) as [Hle | Hgt]; [| exact Hgt].
          rewrite (Z.log2_nonpos m Hle) in Hkl. lia. }
        pose proof (Z.log2_spec m Hpos) as [Hlog _].
        replace (Z.log2 m) with (52 + k) in Hlog by lia.
        rewrite Z.pow_add_r in Hlog by lia.
        assert (Hbig : 2 ^ 52 <= m / 2 ^ k) by (apply Z.div_le_lower_bound; lia).
        assert (Htwo : 2 <= 2 ^ (k - e)).
        { replace (k - e) with (1 + (k - e - 1)) by lia.
          rewrite Z.pow_add_r by lia.
          pose proof (Z.pow_pos_nonneg 2 (k - e - 1)). lia. }
        change (2 ^ 53) with (2 ^ 52 * 2) in Hc.
        assert (2 ^ 52 * 2 <= nearest_even m k * 2 ^ (k - e)); [| lia].
        apply Z.mul_le_mono_nonneg; lia.
    + rewrite lowest_terms_at_least, Z2Nat.id by lia. apply Z.leb_le.
      assert (c * 2 ^ (e - k) <= m / 2 ^ k); [| lia].
      apply Z.div_le_lower_bound; [lia |].
      replace (2 ^ k * (c * 2 ^ (e - k))) with (c * (2 ^ k * 2 ^ (e - k))) by ring.
      rewrite <- Z.pow_add_r by lia. now replace (k + (e - k)) with e by lia.
Qed.

Lemma at_least_ToInteger c (v : Number) a :
  0 <= c -> at_least c v = true -> ToInteger v = Some a -> c <= a.
Proof.
  intros Hc Hv Ha. destruct v as [| z | m e | s]; try discriminate.
  - cbn in Hv, Ha. injection Ha as <-. now apply Z.leb_le.
  - cbn [at_least ToInteger] in Hv, Ha. injection Ha as <-. apply Z.leb_le in Hv.
    pose proof (Z.pow_pos_nonneg 2 (Z.pos e)) as Hp.
    rewrite Z.quot_div_nonneg by nia. apply Z.div_le_lower_bound; lia.
Qed.

Lemma num_add_at_least f c (v : Number) :
  0 <= f -> 0 <= c -> f + c <= 2 ^ 53 ->
  at_least c v = true -> at_least (f + c) (num_add (Int f) v) = true.
Proof.
  intros Hf Hc Hfc Hv. destruct v as [| z | m e | s]; [discriminate | | |].
  - cbn in Hv |- *. apply Z.leb_le in Hv. apply Z.leb_le. lia.
  - cbn [num_add]. cbn [at_least] in Hv. apply Z.leb_le in Hv.
    apply round_double_at_least; lia.
  - exact Hv.
Qed.

Lemma num_mul_7_at_least (v : Number) :
  at_least 1 v = true -> at_least 7 (num_mul v (Int 7)) = true.
Proof.
  intros Hv. destruct v as [| z | m e | s]; [discriminate | | |].
  - cbn in Hv |- *. apply Z.leb_le in Hv. apply Z.leb_le. lia.
  - cbn [num_mul]. cbn [at_least] in Hv. apply Z.leb_le in Hv.
    apply round_double_at_least; [split; [lia | vm_compute; discriminate] | lia | lia].
  - destruct s; [discriminate | reflexivity].
Qed.

(** ** Hexadecimal strings and percent-encoding *)

Lemma byte_val_range b : 0 <= byte_val b < 256.
Proof. unfold byte_val. pose proof (Byte.to_N_bounded b). lia. Qed.

Lemma hex_digit_is_hex d : 0 <= d < 16 -> is_hex (hex_digit d) = true.
Proof.
  intros Hd. unfold is_hex, hex_digit.
  destruct (Z.ltb_spec d 10); rewrite ?orb_true_iff, ?andb_true_iff, ?Z.leb_le; lia.
Qed.

Lemma hex_of_byte_is_hex b : Forall (fun c => is_hex c = true) (hex_of_byte b).
Proof.
  pose proof (byte_val_range b). unfold hex_of_byte.
  repeat constructor; apply hex_digit_is_hex; div_lia.
Qed.

Lemma toString_hex_is_hex bs : Forall (fun c => is_hex c = true) (toString_hex bs).
Proof.
  unfold toString_hex. induction bs as [| b bs IH]; cbn [map concat].
  - constructor.
  - apply Forall_app. split; [apply hex_of_byte_is_hex | exact IH].
Qed.

Lemma toString_hex_length bs : length (toString_hex bs) = (2 * length bs)%nat.
Proof.
  unfold toString_hex. induction bs as [| b bs IH]; cbn [map concat length]; [reflexivity |].
  rewrite length_app, IH. cbn. lia.
Qed.

Lemma is_hex_range c : is_hex c = true -> 48 <= c <= 57 \/ 97 <= c <= 102.
Proof.
  unfold is_hex. rewrite orb_true_iff, !andb_true_iff, !Z.leb_le. tauto.
Qed.

Lemma is_hex_unescaped c : is_hex c = true -> uriUnescaped c = true.
Proof.
  intros Hc%is_hex_range. unfold uriUnescaped, uriAlpha, DecimalDigit.
  rewrite !orb_true_iff, !andb_true_iff, !Z.leb_le. lia.
Qed.

Lemma encodeURIComponent_unescaped s :
  Forall (fun c => uriUnescaped c = true) s -> encodeURIComponent s = Ok s.
Proof.
  induction 1 as [| c s Hc _ IH]; cbn [encodeURIComponent]; [reflexivity |].
  now rewrite Hc, IH.
Qed.

Lemma encodeURIComponent_hex bs : encodeURIComponent (toString_hex bs) = Ok (toString_hex bs).
Proof.
  apply encodeURIComponent_unescaped.
  eapply Forall_impl; [apply toString_hex_is_hex | apply is_hex_unescaped].
Qed.

(** Known answers: e-acute, the euro sign and U+1F600; reserved characters
    and the marks; a lone surrogate. *)
Example encodeURIComponent_known :
  encodeURIComponent [233; 8364; 55357; 56832] = Ok (str "%C3%A9%E2%82%AC%F0%9F%98%80")
  /\ encodeURIComponent (str "a b/?-_.!~*'()") = Ok (str "a%20b%2F%3F-_.!~*'()")
  /\ encodeURIComponent [55357] = Throw URIError.
Proof. vm_compute. repeat split. Qed.

Lemma utf8_bytes_ascii s :
  Forall (fun c => 0 <= c < 128) s -> utf8_bytes s = map octet s.
Proof.
  induction 1 as [| c s Hc _ IH]; cbn [utf8_bytes map]; [reflexivity |].
  unfold is_leading_surrogate, is_trailing_surrogate, utf8_octets.
  destruct (Z.leb_spec 55296 c); [lia |]. destruct (Z.leb_spec 56320 c); [lia |].
  destruct (Z.ltb_spec c 128); [| lia]. cbn. now rewrite IH.
Qed.

Lemma sha256_length m : length (SHA256.sha256 m) = 32%nat.
Proof.
  unfold SHA256.sha256.
  destruct (SHA256.digest_words m) as [[[[[[[a b] c] d] e] f] g] h].
  reflexivity.
Qed.

(** ** Running the Date methods of the table *)

Ltac run_date :=
  cbv beta iota zeta delta
    [bind ret thisTimeValue setDateValue getMinutes getHours getDate
     setMinutes setHours setDate millisecond with_date dates drawn sealings trace
     num_add num_mul].

Section Runs.
Context {platform : Platform}.
Import Time TimeFacts.

Lemma lookup_fresh (l : list Number) x : (l ++ [x]) !! length l = Some x.
Proof. rewrite lookup_app_r by lia. now rewrite Nat.sub_diag. Qed.

Lemma insert_fresh (l : list Number) x y : <[length l := y]> (l ++ [x]) = l ++ [y].
Proof. rewrite insert_app_r_alt by lia. now rewrite Nat.sub_diag. Qed.

Lemma action_Minutes w t0 n :
  (let* m := getMinutes (length (dates w)) in
   setMinutes (length (dates w)) (num_add m (Int n))) (with_date w (Int t0))
  = (Ok (local_plus t0 msPerMinute n), with_date w (local_plus t0 msPerMinute n)).
Proof.
  run_date. repeat (rewrite lookup_fresh; run_date).
  now rewrite setMinutes_local, insert_fresh.
Qed.

Lemma action_Hours w t0 n :
  (let* h := getHours (length (dates w)) in
   setHours (length (dates w)) (num_add h (Int n))) (with_date w (Int t0))
  = (Ok (local_plus t0 msPerHour n), with_date w (local_plus t0 msPerHour n)).
Proof.
  run_date. repeat (rewrite lookup_fresh; run_date).
  now rewrite setHours_local, insert_fresh.
Qed.

Lemma action_Days w t0 n :
  (let* d := getDate (length (dates w)) in
   setDate (length (dates w)) (num_add d (Int n))) (with_date w (Int t0))
  = (Ok (local_plus t0 msPerDay n), with_date w (local_plus t0 msPerDay n)).
Proof.
  run_date. repeat (rewrite lookup_fresh; run_date).
  now rewrite setDate_local, insert_fresh.
Qed.

Lemma action_Weeks w t0 n :
  (let* d := getDate (length (dates w)) in
   setDate (length (dates w)) (num_add d (num_mul (Int n) (Int 7)))) (with_date w (Int t0))
  = (Ok (local_plus t0 (7 * msPerDay) n), with_date w (local_plus t0 (7 * msPerDay) n)).
Proof.
  run_date. repeat (rewrite lookup_fresh; run_date).
  rewrite setDate_local, insert_fresh.
  now replace (n * 7 * msPerDay) with (n * (7 * msPerDay)) by lia.
Qed.

Ltac run_date_number :=
  cbv beta iota zeta delta
    [bind ret thisTimeValue setDateValue getMinutes getHours getDate
     setMinutes setHours setDate millisecond with_date dates drawn sealings trace];
  repeat (rewrite lookup_fresh;
          cbv beta iota zeta delta
            [bind ret thisTimeValue setDateValue getMinutes getHours getDate
             setMinutes setHours setDate millisecond with_date dates drawn sealings
             trace]).

Lemma action_Minutes_number w t0 (v : Number) :
  (let* m := getMinutes (length (dates w)) in
   setMinutes (length (dates w)) (num_add m v)) (with_date w (Int t0))
  = (Ok (local_plus_number t0 (str "Minutes") v),
     with_date w (local_plus_number t0 (str "Minutes") v)).
Proof.
  run_date_number. rewrite setMinutes_number, insert_fresh.
  unfold local_plus_number, local_plus.
  change (unitField (str "Minutes") (LocalTime t0)) with (MinFromTime (LocalTime t0)).
  change (fieldLength (str "Minutes")) with msPerMinute.
  change (addend (str "Minutes") v) with v.
  now destruct (ToInteger _).
Qed.

Lemma action_Hours_number w t0 (v : Number) :
  (let* h := getHours (length (dates w)) in
   setHours (length (dates w)) (num_add h v)) (with_date w (Int t0))
  = (Ok (local_plus_number t0 (str "Hours") v),
     with_date w (local_plus_number t0 (str "Hours") v)).
Proof.
  run_date_number. rewrite setHours_number, insert_fresh.
  unfold local_plus_number, local_plus.
  change (unitField (str "Hours") (LocalTime t0)) with (HourFromTime (LocalTime t0)).
  change (fieldLength (str "Hours")) with msPerHour.
  change (addend (str "Hours") v) with v.
  now destruct (ToInteger _).
Qed.

Lemma action_Days_number w t0 (v : Number) :
  (let* d := getDate (length (dates w)) in
   setDate (length (dates w)) (num_add d v)) (with_date w (Int t0))
  = (Ok (local_plus_number t0 (str "Days") v),
     with_date w (local_plus_number t0 (str "Days") v)).
Proof.
  run_date_number. rewrite setDate_number, insert_fresh.
  unfold local_plus_number, local_plus.
  change (unitField (str "Days") (LocalTime t0)) with (DateFromTime (LocalTime t0)).
  change (fieldLength (str "Days")) with msPerDay.
  change (addend (str "Days") v) with v.
  now destruct (ToInteger _).
Qed.

Lemma action_Weeks_number w t0 (v : Number) :
  (let* d := getDate (length (dates w)) in
   setDate (length (dates w)) (num_add d (num_mul v (Int 7)))) (with_date w (Int t0))
  = (Ok (local_plus_number t0 (str "Weeks") v),
     with_date w (local_plus_number t0 (str "Weeks") v)).
Proof.
  run_date_number. rewrite setDate_number, insert_fresh.
  unfold local_plus_number, local_plus.
  change (unitField (str "Weeks") (LocalTime t0)) with (DateFromTime (LocalTime t0)).
  change (fieldLength (str "Weeks")) with msPerDay.
  change (addend (str "Weeks") v) with (num_mul v (Int 7)).
  now destruct (ToInteger _).
Qed.

Lemma bind_run {A B : Type} (c : M A) (k : A -> M B) (w w' : World) (a : A) :
  c w = (Ok a, w') -> bind c k w = k a w'.
Proof. intros Hc. unfold bind. now rewrite Hc. Qed.

(** Lines 113-118: the lookup in the table and the guarded update. *)
Lemma updateExpiresAt_run w t0 (u : jsstring) (v : Number) :
  (match option_map item_action
           (List.find (fun item => jsstring_eqb (item_unit item) u) expirationUnitsAndActions)
   with
   | Some update =>
       if truthy v then let* _ := update (length (dates w)) v in ret tt else ret tt
   | None => ret tt
   end) (with_date w (Int t0))
  = (Ok tt, with_date w (expiry t0 u v)).
Proof.
  unfold expiry, unitLength.
  cbn [List.find option_map item_unit item_action expirationUnitsAndActions].
  unfold jsstring_eqb.
  repeat case_bool_decide; subst; cbn [option_map item_action];
    try (destruct v; reflexivity).
  all: destruct v as [| n | m e | s]; [reflexivity | | |].
  all: try (cbn [truthy]; destruct (n =? 0); cbn [negb]; [reflexivity |]).
  all: try (destruct (truthy (Frac m e)); [| reflexivity]).
  all: try (destruct (truthy (Infinity s)); [| reflexivity]).
  - now rewrite (bind_run _ _ _ _ _ (action_Minutes w t0 n)).
  - now rewrite (bind_run _ _ _ _ _ (action_Minutes_number w t0 _)).
  - now rewrite (bind_run _ _ _ _ _ (action_Minutes_number w t0 _)).
  - now rewrite (bind_run _ _ _ _ _ (action_Hours w t0 n)).
  - now rewrite (bind_run _ _ _ _ _ (action_Hours_number w t0 _)).
  - now rewrite (bind_run _ _ _ _ _ (action_Hours_number w t0 _)).
  - now rewrite (bind_run _ _ _ _ _ (action_Days w t0 n)).
  - now rewrite (bind_run _ _ _ _ _ (action_Days_number w t0 _)).
  - now rewrite (bind_run _ _ _ _ _ (action_Days_number w t0 _)).
  - now rewrite (bind_run _ _ _ _ _ (action_Weeks w t0 n)).
  - now rewrite (bind_run _ _ _ _ _ (action_Weeks_number w t0 _)).
  - now rewrite (bind_run _ _ _ _ _ (action_Weeks_number w t0 _)).
Qed.

End Runs.

(** ** Running the handler *)

Section HandlerRuns.
Context {platform : Platform}.

Lemma onFormSubmit_no_org env data w :
  has_id (currentOrgId env) = false -> onFormSubmit env data w = (Ok tt, w).
Proof. intros Hid. unfold onFormSubmit, try_catch. now rewrite Hid. Qed.

Lemma encodeURIComponent_rawKey env w : encodeURIComponent (rawKey env w) = Ok (rawKey env w).
Proof. apply encodeURIComponent_hex. Qed.

Lemma encodeURIComponent_verifier env w :
  encodeURIComponent (verifier env w) = Ok (verifier env w).
Proof. apply encodeURIComponent_hex. Qed.

(** A submission with an organisation selected: the handler returns
    normally, whatever the store answers, and leaves the world
    [submitted env data w]. *)
Lemma onFormSubmit_run env data w :
  has_id (currentOrgId env) = true ->
  onFormSubmit env data w = (Ok tt, submitted env data w).
Proof.
  intros Hid. unfold onFormSubmit. rewrite Hid. cbn [negb].
  set (w1 := {| dates := dates w; drawn := (drawn w + 16)%nat; sealings := sealings w;
                trace := trace w |}).
  set (w2 := {| dates := dates w; drawn := (drawn w + 16 + ivLength)%nat;
                sealings := S (sealings w); trace := trace w |}).
  set (tv := expiry (now env) (expiresInUnit data) (expiresInValue data)).
  unfold try_catch.
  rewrite (bind_run _ _ w w1 (map (entropy env) (seq (drawn w) 16)) eq_refl).
  fold (rawKey env w). fold (verifier env w).
  rewrite (bind_run _ _ w1 w2 (sealed env data w) eq_refl).
  rewrite (bind_run _ _ w2 (with_date w2 (Int (now env))) (length (dates w2)) eq_refl).
  rewrite (bind_run _ _ _ _ _ (updateExpiresAt_run w2 (now env) _ _)). fold tv.
  assert (Htv : thisTimeValue (length (dates w2)) (with_date w2 tv) = (Ok tv, with_date w2 tv)).
  { unfold thisTimeValue, with_date. cbn [dates]. now rewrite lookup_fresh. }
  rewrite (bind_run _ _ _ _ _ Htv).
  unfold submitted, submitEvents, storedPayload. fold tv.
  unfold bind, emit, lift, ret, with_date. cbn [dates drawn sealings trace w2].
  destruct (storeResponse env _) as [id | e].
  - rewrite encodeURIComponent_verifier, encodeURIComponent_rawKey.
    unfold shareLink. now rewrite <- !app_assoc.
  - unfold failureEvents. cbn [dates drawn sealings trace].
    destruct (response_status_is e 401); cbn [dates drawn sealings trace];
      now rewrite <- !app_assoc.
Qed.

End HandlerRuns.

(** ** The claims about key material and the link *)

Section KeyAndLink.
Context {platform : Platform}.

Lemma events_of_onFormSubmit env data w :
  events_of (onFormSubmit env data) w
  = if has_id (currentOrgId env) then submitEvents env data w else [].
Proof.
  unfold events_of. destruct (has_id (currentOrgId env)) eqn:Hid.
  - rewrite onFormSubmit_run by assumption. cbn [snd submitted trace].
    apply drop_app_length.
  - rewrite onFormSubmit_no_org by assumption. cbn [snd]. apply drop_all.
Qed.

Lemma rawKey_length env w : length (rawKey env w) = 32%nat.
Proof. unfold rawKey. now rewrite toString_hex_length, length_map, length_seq. Qed.

Lemma rawKey_is_hex env w : Forall (fun c => is_hex c = true) (rawKey env w).
Proof. apply toString_hex_is_hex. Qed.

Lemma rawKey_utf8 env w : utf8_bytes (rawKey env w) = map octet (rawKey env w).
Proof.
  apply utf8_bytes_ascii. eapply Forall_impl; [apply rawKey_is_hex |].
  intros c Hc%is_hex_range. cbv beta. lia.
Qed.

Lemma verifier_length env w : length (verifier env w) = 64%nat.
Proof. unfold verifier. now rewrite toString_hex_length, sha256_length. Qed.

(** C1.  In every run of the submit handler the raw key is the lowercase
    hexadecimal encoding of the next 16 bytes of the random source, hence 32
    characters of [0-9a-f]; the verifier is the hexadecimal encoding (64
    characters) of the SHA-256 digest of the 32 ASCII bytes of that key; and
    these two values are the [hashedHex] sent to the store and the two
    components of the link.  (That the source is cryptographically secure is
    a property of [crypto.randomBytes], not of this code.) *)
Theorem C1_key_and_verifier (env : Env) (data : FormData) (w : World) :
  let key := toString_hex (map (entropy env) (seq (drawn w) 16)) in
  let digest := toString_hex (SHA256.sha256 (map octet key)) in
  length key = 32%nat
  /\ Forall (fun c => is_hex c = true) key
  /\ length digest = 64%nat
  /\ exists p : Payload,
       hashedHex p = digest
       /\ events_of (onFormSubmit env data) w
          = if has_id (currentOrgId env)
            then MutateAsync p ::
                 match storeResponse env p with
                 | Ok id =>
                     [SetNewSharedSecret (shareLink (origin env) id digest key);
                      CreateNotification (str "Successfully created a shared secret")
                                         (str "success")]
                 | Throw e => failureEvents e
                 end
            else [].
Proof.
  intros key digest.
  assert (Hd : digest = verifier env w).
  { unfold digest, verifier. now rewrite rawKey_utf8. }
  split; [apply rawKey_length |].
  split; [apply rawKey_is_hex |].
  split; [rewrite Hd; apply verifier_length |].
  exists (storedPayload env data w). split; [now rewrite Hd |].
  rewrite events_of_onFormSubmit, Hd. reflexivity.
Qed.

End KeyAndLink.

Section LinkFormat.
Context {platform : Platform}.

Lemma not_hex_not_in (sep : Z) (s : jsstring) :
  is_hex sep = false -> Forall (fun c => is_hex c = true) s -> ~ In sep s.
Proof.
  intros Hsep Hs Hin. rewrite Forall_forall in Hs.
  apply list_elem_of_In, Hs in Hin. congruence.
Qed.

(** C2.  When the store accepts the record and answers [id], the link the
    handler publishes is
    [origin ++ "/shared/secret/" ++ id ++ "?key=" ++ v ++ "-" ++ k], where [v]
    and [k] are the results of [encodeURIComponent] on the verifier and on
    the raw key, each encoded on its own; the separator ["-"] is no
    hexadecimal digit and occurs in neither component; [id] is spliced in as
    it is.  (On hexadecimal strings the percent-encoding changes nothing, so
    [v] and [k] are the verifier and the key themselves.) *)
Theorem C2_share_link_format (env : Env) (data : FormData) (w : World) (id : jsstring) :
  has_id (currentOrgId env) = true ->
  storeResponse env (storedPayload env data w) = Ok id ->
  exists v k : jsstring,
    encodeURIComponent (verifier env w) = Ok v
    /\ encodeURIComponent (rawKey env w) = Ok k
    /\ events_of (onFormSubmit env data) w
       = [MutateAsync (storedPayload env data w);
          SetNewSharedSecret
            (origin env ++ str "/shared/secret/" ++ id ++ str "?key=" ++ v ++ str "-" ++ k);
          CreateNotification (str "Successfully created a shared secret") (str "success")]
    /\ Forall (fun sep => is_hex sep = false /\ ~ In sep (verifier env w)
                          /\ ~ In sep (rawKey env w)) (str "-")
    /\ v = verifier env w /\ k = rawKey env w.
Proof.
  intros Hid Hstore. exists (verifier env w), (rawKey env w).
  split; [apply encodeURIComponent_verifier |].
  split; [apply encodeURIComponent_rawKey |].
  split.
  - rewrite events_of_onFormSubmit, Hid. unfold submitEvents. now rewrite Hstore.
  - split; [| split; reflexivity].
    repeat constructor.
    + apply not_hex_not_in; [reflexivity | apply toString_hex_is_hex].
    + apply not_hex_not_in; [reflexivity | apply rawKey_is_hex].
Qed.

End LinkFormat.

Lemma C2_share_link_format_witness :
  exists v k : jsstring,
    encodeURIComponent (verifier example_env empty_world) = Ok v
    /\ encodeURIComponent (rawKey example_env empty_world) = Ok k
    /\ events_of (onFormSubmit (platform := utc_platform) example_env (example_data "Hours" 1))
                 empty_world
       = [MutateAsync (storedPayload (platform := utc_platform) example_env (example_data "Hours" 1)
                                     empty_world);
          SetNewSharedSecret
            (origin example_env ++ str "/shared/secret/" ++ str "7c9e6679" ++ str "?key="
             ++ v ++ str "-" ++ k);
          CreateNotification (str "Successfully created a shared secret") (str "success")]
    /\ Forall (fun sep => is_hex sep = false
                          /\ ~ In sep (verifier example_env empty_world)
                          /\ ~ In sep (rawKey example_env empty_world)) (str "-")
    /\ v = verifier example_env empty_world
    /\ k = rawKey example_env empty_world.
Proof.
  apply (C2_share_link_format (platform := utc_platform) example_env (example_data "Hours" 1)
           empty_world (str "7c9e6679")); reflexivity.
Defined.

(** Known answers: the digest of ["abc"] (FIPS 180-4, appendix B.1) and the
    link of the example submission. *)
Example sha256_abc :
  toString_hex (SHA256.sha256 (map octet (str "abc")))
  = str "ba7816bf8f01cfea414140de5dae2223b00361a396177a9cb410ff61f20015ad".
Proof. vm_compute. reflexivity. Qed.

Example example_link :
  List.filter is_link
    (events_of (onFormSubmit (platform := utc_platform) example_env (example_data "Hours" 1))
               empty_world)
  = [SetNewSharedSecret
       (str ("https://app.example.com/shared/secret/7c9e6679?key="
             ++ "30200666d9481fce18458e951f0c763066bf58eba9e214eeacfa5f5707e017d1"
             ++ "-0b30557a9fc4e90e33587da2c7ec1136"))].
Proof. vm_compute. reflexivity. Qed.

(** ** What reaches the storage tier *)

Section StorageView.
Context {platform : Platform}.

Lemma storage_view_submitEvents env data w :
  storage_view (submitEvents env data w) = [storedPayload env data w].
Proof.
  unfold submitEvents, storage_view, failureEvents. cbn [omap].
  destruct (storeResponse env _); [reflexivity |].
  destruct (response_status_is _ _); reflexivity.
Qed.

Lemma without_link_submitEvents env data w :
  without_link (submitEvents env data w)
  = MutateAsync (storedPayload env data w) ::
    match storeResponse env (storedPayload env data w) with
    | Ok _ => [CreateNotification (str "Successfully created a shared secret") (str "success")]
    | Throw e => failureEvents e
    end.
Proof.
  unfold submitEvents, without_link, failureEvents. cbn [List.filter is_link negb].
  destruct (storeResponse env _); [reflexivity |].
  cbn [List.filter is_link negb].
  destruct (response_status_is _ _); reflexivity.
Qed.

Lemma links_submitEvents env data w :
  List.filter is_link (submitEvents env data w)
  = match storeResponse env (storedPayload env data w) with
    | Ok id => [SetNewSharedSecret (shareLink (origin env) id (verifier env w) (rawKey env w))]
    | Throw _ => []
    end.
Proof.
  unfold submitEvents, failureEvents. cbn [List.filter is_link].
  destruct (storeResponse env _); [reflexivity |].
  cbn [List.filter is_link].
  destruct (response_status_is _ _); reflexivity.
Qed.

(** C3.  What a submission sends to the store is one record of six fields:
    the three outputs of the cipher, the digest of the key, the expiry and
    the view count.  Two submissions that agree on the public inputs, on the
    digest of the key and on the output of the cipher send the same record to
    the store and make the same calls apart from the link, whatever their
    plaintexts and random sources are: neither the raw key nor the plaintext
    enters those calls except through the digest and the cipher.  The raw
    key itself is the last component of the link. *)
Theorem C3_store_sees_only_digest_and_ciphertext
    (env1 env2 : Env) (d1 d2 : FormData) (w1 w2 : World) :
  same_public env1 env2 d1 d2 ->
  verifier env1 w1 = verifier env2 w2 ->
  sealed env1 d1 w1 = sealed env2 d2 w2 ->
  storage_view (events_of (onFormSubmit env1 d1) w1)
  = storage_view (events_of (onFormSubmit env2 d2) w2)
  /\ without_link (events_of (onFormSubmit env1 d1) w1)
     = without_link (events_of (onFormSubmit env2 d2) w2)
  /\ Forall (fun p => encryptedValue p = Cipher.ciphertext (sealed env1 d1 w1)
                      /\ iv p = Cipher.iv (sealed env1 d1 w1)
                      /\ tag p = Cipher.tag (sealed env1 d1 w1)
                      /\ hashedHex p = verifier env1 w1
                      /\ expiresAfterViews p = form_expiresAfterViews d1)
            (storage_view (events_of (onFormSubmit env1 d1) w1))
  /\ Forall (fun e => exists id prefix : jsstring,
                 e = SetNewSharedSecret (prefix ++ str "-" ++ rawKey env1 w1))
            (List.filter is_link (events_of (onFormSubmit env1 d1) w1)).
Proof.
  intros (Hnow & Horigin & Horg & Hstore & Hviews & Hvalue & Hunit) Hver Hseal.
  assert (Hp : storedPayload env1 d1 w1 = storedPayload env2 d2 w2).
  { unfold storedPayload. now rewrite Hseal, Hver, Hnow, Hunit, Hvalue, Hviews. }
  rewrite !events_of_onFormSubmit, <- Horg.
  destruct (has_id (currentOrgId env1)).
  - rewrite !storage_view_submitEvents, !without_link_submitEvents, links_submitEvents.
    rewrite <- Hp, <- Hstore.
    split; [reflexivity |]. split; [reflexivity |]. split.
    + repeat constructor.
    + destruct (storeResponse env1 _) as [id | e]; constructor; [| constructor].
      exists id, (origin env1 ++ str "/shared/secret/" ++ id ++ str "?key=" ++ verifier env1 w1).
      unfold shareLink. now rewrite <- !app_assoc.
  - repeat split; constructor.
Qed.

End StorageView.

(** Two plaintexts that differ and that the store cannot tell apart: a lone
    surrogate and U+FFFD have the same UTF-8 bytes, hence the same sealed
    form. *)
Lemma C3_store_sees_only_digest_and_ciphertext_witness :
  value (example_secret [55296]) <> value (example_secret [65533])
  /\ storage_view (events_of (onFormSubmit (platform := utc_platform) example_env
                                           (example_secret [55296])) empty_world)
     = storage_view (events_of (onFormSubmit (platform := utc_platform) example_env
                                             (example_secret [65533])) empty_world).
Proof.
  split; [discriminate |].
  apply (C3_store_sees_only_digest_and_ciphertext (platform := utc_platform)
           example_env example_env (example_secret [55296]) (example_secret [65533])
           empty_world empty_world).
  - repeat split.
  - reflexivity.
  - vm_compute. reflexivity.
Defined.

(** ** The expiry *)

Section Expiry.
Context {platform : Platform}.
Import Time.

Lemma storage_view_onFormSubmit env data w :
  has_id (currentOrgId env) = true ->
  storage_view (events_of (onFormSubmit env data) w) = [storedPayload env data w].
Proof.
  intros Hid. rewrite events_of_onFormSubmit, Hid. apply storage_view_submitEvents.
Qed.

Lemma unitLength_cases u len :
  unitLength u = Some len ->
  (u = str "Minutes" /\ len = msPerMinute) \/ (u = str "Hours" /\ len = msPerHour)
  \/ (u = str "Days" /\ len = msPerDay) \/ (u = str "Weeks" /\ len = 7 * msPerDay).
Proof.
  unfold unitLength, jsstring_eqb.
  repeat case_bool_decide; intros [= <-]; subst u; tauto.
Qed.

Lemma TimeClip_in_range t : Z.abs t <= maxTime -> TimeClip (Int t) = Int t.
Proof. intros Ht. unfold TimeClip. destruct (Z.ltb_spec maxTime (Z.abs t)); [lia | reflexivity]. Qed.

Lemma TimeClip_out_of_range t : maxTime < Z.abs t -> TimeClip (Int t) = NaN.
Proof. intros Ht. unfold TimeClip. destruct (Z.ltb_spec maxTime (Z.abs t)); [reflexivity | lia]. Qed.

Lemma expiry_recognised now u len n :
  unitLength u = Some len -> 1 <= n ->
  expiry now u (Int n) = local_plus now len n.
Proof.
  intros Hu Hn. unfold expiry. rewrite Hu.
  destruct (Z.eqb_spec n 0); [lia | reflexivity].
Qed.

(** C4 (amended).  For a recognised unit and an integer value [n >= 1] the
    expiry sent to the store is wall-clock addition: the local time of now
    plus [n] unit lengths, converted back to UTC by the rule of the host,
    provided that instant is a time value of Date (at most 8.64e15 ms from
    the epoch) and clock, host and value are in the range where the sums of
    the Date methods are exact ([exact_for]).  When the host's offset at the
    expiry is the offset it used for the conversion (the local time is
    neither skipped nor repeated by a clock change), the local clock shows
    that local time at the expiry: for Days the local day number has grown
    by exactly [n] and for Weeks by [7 * n], the time within the day being
    kept, so month and year boundaries are crossed by the calendar.  When
    that offset is also the offset at the current time, the expiry is
    [now + n * len] milliseconds; across a clock change it differs from that
    by the change. *)
Theorem C4_expiry_is_wall_clock_addition
    (env : Env) (data : FormData) (w : World) (len n : Z) :
  has_id (currentOrgId env) = true ->
  unitLength (expiresInUnit data) = Some len ->
  expiresInValue data = Int n ->
  1 <= n ->
  exact_for (now env) n len ->
  let local := LocalTime (now env) + n * len in
  let u := local - LocalTZA local false in
  Z.abs u <= maxTime ->
  map expiresAt (storage_view (events_of (onFormSubmit env data) w)) = [Int u]
  /\ (LocalTZA u true = LocalTZA local false ->
      LocalTime u = local
      /\ (expiresInUnit data = str "Days" ->
          Day (LocalTime u) = Day (LocalTime (now env)) + n
          /\ TimeWithinDay (LocalTime u) = TimeWithinDay (LocalTime (now env)))
      /\ (expiresInUnit data = str "Weeks" ->
          Day (LocalTime u) = Day (LocalTime (now env)) + 7 * n
          /\ TimeWithinDay (LocalTime u) = TimeWithinDay (LocalTime (now env))))
  /\ (LocalTZA local false = LocalTZA (now env) true -> u = now env + n * len).
Proof.
  intros Hid Hunit Hvalue Hn Hexact local u Hrange.
  split; [| split].
  - rewrite storage_view_onFormSubmit by assumption.
    cbn [map storedPayload expiresAt]. rewrite Hvalue.
    rewrite (expiry_recognised _ _ len) by assumption.
    unfold local_plus. cbn [UTC]. fold local. fold u. now rewrite TimeClip_in_range.
  - intros Hsame.
    assert (HL : LocalTime u = local) by (unfold LocalTime; rewrite Hsame; unfold u; lia).
    split; [exact HL |]. rewrite HL. split.
    + intros Hdays. rewrite Hdays in Hunit. injection Hunit as <-.
      unfold local, Day, TimeWithinDay, msPerDay. split; div_lia.
    + intros Hweeks. rewrite Hweeks in Hunit. injection Hunit as <-.
      unfold local, Day, TimeWithinDay, msPerDay. split; div_lia.
  - intros Hsame. unfold u. rewrite Hsame. unfold local, LocalTime. lia.
Qed.

End Expiry.

Lemma C4_expiry_is_wall_clock_addition_witness :
  map expiresAt
      (storage_view (events_of (onFormSubmit (platform := cet_platform) example_env
                                             (example_data "Days" 30)) empty_world))
  = [Int 1708344000000].
Proof.
  apply (C4_expiry_is_wall_clock_addition (platform := cet_platform) example_env
           (example_data "Days" 30) empty_world Time.msPerDay 30);
    [reflexivity | reflexivity | reflexivity | lia | | vm_compute; discriminate].
  split; [vm_compute; discriminate | split; [| vm_compute; discriminate]].
  intros t b. cbn [LocalTZA cet_platform]. unfold cet_2024.
  destruct b; destruct (_ && _); vm_compute; discriminate.
Defined.

(** A value the schema accepts and for which the Date is invalid: 100100000
    days after 20 January 2024 lies beyond the last time value of Date. *)
Lemma C4_counterexample : ~ expiry_for_every_value.
Proof.
  intros Hclaim.
  specialize (Hclaim utc_platform example_env (example_data "Days" 100100000) empty_world
                     Time.msPerDay 100100000 eq_refl eq_refl eq_refl ltac:(lia)).
  vm_compute in Hclaim. discriminate Hclaim.
Qed.

(** Thirty days from 20 January 2024, 12:00, end on 19 February, 12:00. *)
Example thirty_days_cross_a_month :
  expiry (platform := utc_platform) 1705752000000 (str "Days") (Int 30) = Int 1708344000000
  /\ Time.YearFromTime 1708344000000 = 2024
  /\ Time.MonthFromTime 1708344000000 = 1
  /\ Time.DateFromTime 1708344000000 = 19
  /\ Time.HourFromTime 1708344000000 = 12.
Proof. vm_compute. repeat split. Qed.

(** One day from 30 March 2024, 12:00 Central European Time, is 31 March,
    12:00 summer time: 23 hours later, not 24. *)
Example one_day_across_a_clock_change :
  map expiresAt
      (storage_view (events_of (onFormSubmit (platform := cet_platform)
                                             (example_env_at 1711796400000)
                                             (example_data "Days" 1)) empty_world))
  = [Int (1711796400000 + 23 * Time.msPerHour)].
Proof. vm_compute. reflexivity. Qed.

(** One minute from 27 October 2024, 01:30 UTC, on a host on Central European
    Time: the local clock shows 02:30 for the second time, 02:31 is read as
    the first 02:31 (summer time), and the expiry lies 59 minutes before the
    current time. *)
Example one_minute_in_a_repeated_hour :
  map expiresAt
      (storage_view (events_of (onFormSubmit (platform := cet_platform)
                                             (example_env_at 1729992600000)
                                             (example_data "Minutes" 1)) empty_world))
  = [Int (1729992600000 - 59 * Time.msPerMinute)].
Proof. vm_compute. reflexivity. Qed.

(** A view count of 1.5 and a value of 1.9 Minutes are accepted; the record
    carries the view count 1.5 and the Date moves by one minute.  The infinite
    value is accepted too and leaves an invalid Date. *)
Example fractions_are_accepted :
  let raw := {| raw_value := Some (str "hello");
                raw_expiresAfterViews := Some (Frac 3 1);
                raw_expiresInValue := Some (Frac 4278419646001971 51);
                raw_expiresInUnit := Some (str "Minutes") |} in
  let unbounded := {| raw_value := Some (str "hello");
                      raw_expiresAfterViews := Some (Int 1);
                      raw_expiresInValue := Some (Infinity false);
                      raw_expiresInUnit := Some (str "Minutes") |} in
  map (fun p => (expiresAfterViews p, expiresAt p))
      (storage_view (events_of (handleSubmit (platform := utc_platform) example_env raw)
                               empty_world))
  = [(Frac 3 1, Int (now example_env + Time.msPerMinute))]
  /\ map (fun p => (expiresAfterViews p, expiresAt p))
         (storage_view (events_of (handleSubmit (platform := utc_platform) example_env unbounded)
                                  empty_world))
     = [(Int 1, NaN)].
Proof. vm_compute. split; reflexivity. Qed.

(** ** The schema and the submission *)

Section Submission.
Context {platform : Platform}.

Lemma resolver_invalid raw : schema raw <> [] -> resolver raw = inl (schema raw).
Proof. intros Hne. unfold resolver. destruct (schema raw); [congruence | reflexivity]. Qed.

Lemma handleSubmit_invalid env raw w :
  schema raw <> [] -> handleSubmit env raw w = (Ok (Invalid (schema raw)), w).
Proof. intros Hne. unfold handleSubmit. now rewrite resolver_invalid. Qed.

Lemma events_of_invalid env raw w :
  schema raw <> [] -> events_of (handleSubmit env raw) w = [].
Proof.
  intros Hne. unfold events_of. rewrite handleSubmit_invalid by assumption.
  cbn [snd]. apply drop_all.
Qed.

Lemma handleSubmit_valid env raw data w :
  resolver raw = inr data ->
  handleSubmit env raw w = (Ok Submitted, snd (onFormSubmit env data w))
  /\ events_of (handleSubmit env raw) w = events_of (onFormSubmit env data) w.
Proof.
  intros Hr. unfold events_of, handleSubmit. rewrite Hr. unfold bind, ret.
  destruct (has_id (currentOrgId env)) eqn:Hid.
  - now rewrite onFormSubmit_run.
  - now rewrite onFormSubmit_no_org.
Qed.

Lemma field_errors_nil label tests :
  field_errors label tests = [] <-> forallb snd tests = true.
Proof.
  unfold field_errors. induction tests as [| [t b] tests IH]; cbn; [tauto |].
  destruct b; cbn; [exact IH | split; discriminate].
Qed.

Lemma field_errors_label label tests :
  Forall (fun e => err_label e = str label) (field_errors label tests).
Proof.
  unfold field_errors. apply Forall_map, Forall_forall. reflexivity.
Qed.

Lemma field_errors_In label tests t :
  In (t, false) tests -> In {| err_label := str label; err_test := t |} (field_errors label tests).
Proof.
  intros Hin. unfold field_errors.
  apply (in_map (fun x => {| err_label := str label; err_test := fst x |}) _ (t, false)).
  apply filter_In. split; [assumption | reflexivity].
Qed.

Lemma field_errors_In_inv label tests t :
  In {| err_label := str label; err_test := t |} (field_errors label tests) ->
  In (t, false) tests.
Proof.
  unfold field_errors. rewrite in_map_iff. intros ([t' b] & Heq & Hin).
  apply filter_In in Hin as [Hin Hb]. cbn in Heq, Hb.
  injection Heq as <-. destruct b; [discriminate | assumption].
Qed.

(** A number field passes its tests exactly when it holds a number of at
    least [n]: an integer, a fraction or the positive infinity. *)
Lemma number_tests_pass n v :
  forallb snd (number_tests n v) = true <-> exists a, v = Some a /\ at_least n a = true.
Proof.
  destruct v as [[| z | m e | s] |]; cbn.
  - split; [discriminate | intros (a & [= <-] & Ha); discriminate Ha].
  - rewrite andb_true_r. split; [intros Hz; now exists (Int z) | now intros (a & [= <-] & Ha)].
  - rewrite andb_true_r. split; [intros Hz; now exists (Frac m e) | now intros (a & [= <-] & Ha)].
  - rewrite andb_true_r. split; [intros Hz; now exists (Infinity s) | now intros (a & [= <-] & Ha)].
  - split; [discriminate | intros (a & Ha & _); discriminate Ha].
Qed.

(** What the resolver accepts: a non-empty plaintext of at most 10000 code
    units, two numbers of at least 1, and a non-empty unit. *)
Lemma resolver_accepts raw data :
  resolver raw = inr data ->
  raw_value raw = Some (value data)
  /\ raw_expiresAfterViews raw = Some (form_expiresAfterViews data)
  /\ raw_expiresInValue raw = Some (expiresInValue data)
  /\ raw_expiresInUnit raw = Some (expiresInUnit data)
  /\ value data <> [] /\ Z.of_nat (length (value data)) <= 10000
  /\ at_least 1 (form_expiresAfterViews data) = true
  /\ at_least 1 (expiresInValue data) = true
  /\ expiresInUnit data <> [].
Proof.
  unfold resolver. destruct (schema raw) eqn:Hs; [| intros; discriminate].
  unfold schema in Hs.
  apply app_eq_nil in Hs as [Hv Hs]. apply app_eq_nil in Hs as [Hviews Hs].
  apply app_eq_nil in Hs as [Hn Hu].
  apply field_errors_nil in Hv, Hviews, Hn, Hu.
  apply number_tests_pass in Hviews as (views & Hrv & Hviews).
  apply number_tests_pass in Hn as (n & Hrn & Hn).
  rewrite Hrv, Hrn.
  destruct (raw_value raw) as [v |]; [| discriminate].
  destruct (raw_expiresInUnit raw) as [u |]; [| discriminate].
  intros [= <-]. cbn in Hv, Hu |- *.
  rewrite !andb_true_r in *. apply andb_true_iff in Hv as [Hmax Hreq].
  apply Z.leb_le in Hmax.
  repeat split; try assumption.
  - intros ->. discriminate.
  - intros ->. discriminate.
Qed.

Lemma events_of_rejected env raw w errors :
  resolver raw = inl errors -> events_of (handleSubmit env raw) w = [].
Proof.
  intros Hr. unfold events_of, handleSubmit. rewrite Hr. cbn [snd ret]. apply drop_all.
Qed.

(** A record reaches the store only from an accepted form, and then it is
    [storedPayload]. *)
Lemma stored_by_handleSubmit env raw w p :
  In p (storage_view (events_of (handleSubmit env raw) w)) ->
  exists data, resolver raw = inr data /\ p = storedPayload env data w.
Proof.
  destruct (resolver raw) as [errors | data] eqn:Hr.
  - rewrite (events_of_rejected _ _ _ _ Hr). intros [].
  - destruct (handleSubmit_valid env raw data w Hr) as [_ ->].
    rewrite events_of_onFormSubmit. destruct (has_id (currentOrgId env)); [| intros []].
    rewrite storage_view_submitEvents. intros [<- | []]. now exists data.
Qed.

(** C5 (amended).  A unit outside the table is no error of its own.  The
    schema asks only that the unit be a non-empty string: an empty unit is
    rejected with the error [required] before the handler runs; for any
    other unknown unit the schema reports nothing about the unit, the handler
    finds no action in the table, leaves the Date at the current time and
    sends the record with [expiresAt = now]. *)
Theorem C5_unknown_unit_leaves_expiry_at_now
    (env : Env) (raw : RawForm) (w : World) (u : jsstring) :
  raw_expiresInUnit raw = Some u ->
  unitLength u = None ->
  (u = [] ->
   exists errors,
     handleSubmit env raw w = (Ok (Invalid errors), w)
     /\ In {| err_label := str "Expiration Unit"; err_test := test_required |} errors)
  /\ (u <> [] ->
      Forall (fun e => err_label e <> str "Expiration Unit") (schema raw)
      /\ forall data,
           resolver raw = inr data ->
           has_id (currentOrgId env) = true ->
           handleSubmit env raw w = (Ok Submitted, submitted env data w)
           /\ map expiresAt (storage_view (events_of (handleSubmit env raw) w))
              = [Int (now env)]).
Proof.
  intros Hraw Hunit. split.
  - intros ->.
    assert (Hin : In {| err_label := str "Expiration Unit"; err_test := test_required |}
                     (schema raw)).
    { unfold schema. rewrite Hraw. rewrite !in_app_iff. do 3 right.
      apply field_errors_In. now left. }
    exists (schema raw). split; [| exact Hin].
    apply handleSubmit_invalid. intros Hnil. now rewrite Hnil in Hin.
  - intros Hne. split.
    + unfold schema. rewrite Hraw.
      replace (string_required (Some u)) with true by (destruct u; [congruence | reflexivity]).
      replace (field_errors "Expiration Unit" [(test_required, true)]) with (@nil ValidationError)
        by reflexivity.
      rewrite app_nil_r. rewrite !Forall_app. repeat split;
        (eapply Forall_impl; [apply field_errors_label |]);
        intros e -> Heq; vm_compute in Heq; discriminate Heq.
    + intros data Hr Hid.
      destruct (handleSubmit_valid env raw data w Hr) as [-> ->].
      rewrite onFormSubmit_run by assumption. split; [reflexivity |].
      rewrite storage_view_onFormSubmit by assumption.
      destruct (resolver_accepts raw data Hr) as (_ & _ & _ & Hu & _).
      rewrite Hraw in Hu. injection Hu as Hu.
      cbn [map storedPayload expiresAt]. rewrite <- Hu. unfold expiry. now rewrite Hunit.
Qed.

(** C6.  A form whose expiration value is absent or not positive is rejected
    by the schema with an error on the field "Expiration Value" ([required]
    when absent, [min] when below 1); the handler does not run, nothing is
    sent to the store, and so no record without a time limit results.  The
    form has no way to choose a limit by views alone. *)
Theorem C6_missing_or_nonpositive_value_is_rejected
    (env : Env) (raw : RawForm) (w : World) :
  raw_expiresInValue raw = None
  \/ (exists n : Z, raw_expiresInValue raw = Some (Int n) /\ n <= 0) ->
  exists errors test,
    handleSubmit env raw w = (Ok (Invalid errors), w)
    /\ In {| err_label := str "Expiration Value"; err_test := test |} errors
    /\ (test = test_required \/ test = test_min)
    /\ storage_view (events_of (handleSubmit env raw) w) = [].
Proof.
  intros Hvalue.
  assert (Hin : exists test,
             In {| err_label := str "Expiration Value"; err_test := test |} (schema raw)
             /\ (test = test_required \/ test = test_min)).
  { destruct Hvalue as [Hnone | (n & Hsome & Hn)].
    - exists test_required. split; [| now left].
      unfold schema. rewrite Hnone, !in_app_iff. right. right. left.
      apply field_errors_In. cbn. tauto.
    - exists test_min. split; [| now right].
      unfold schema. rewrite Hsome, !in_app_iff. right. right. left.
      apply field_errors_In. cbn.
      destruct (Z.leb_spec 1 n); [lia | tauto]. }
  destruct Hin as (test & Hin & Htest).
  assert (Hne : schema raw <> []) by (intros Hnil; now rewrite Hnil in Hin).
  exists (schema raw), test. split; [now apply handleSubmit_invalid |].
  split; [exact Hin |]. split; [exact Htest |].
  now rewrite events_of_invalid.
Qed.

(** C7.  A plaintext of more than 10000 code units is rejected by the schema
    with the error [max] on "Shared Secret Value": the handler does not run,
    so the world is unchanged, no random byte is drawn and the cipher is not
    called.  A plaintext of at most 10000 code units passes this test. *)
Theorem C7_plaintext_length_limit (env : Env) (raw : RawForm) (w : World) (v : jsstring) :
  raw_value raw = Some v ->
  (10000 < Z.of_nat (length v) ->
   exists errors,
     handleSubmit env raw w = (Ok (Invalid errors), w)
     /\ In {| err_label := str "Shared Secret Value"; err_test := test_max |} errors
     /\ sealings (snd (handleSubmit env raw w)) = sealings w
     /\ events_of (handleSubmit env raw) w = [])
  /\ (Z.of_nat (length v) <= 10000 ->
      ~ In {| err_label := str "Shared Secret Value"; err_test := test_max |} (schema raw)).
Proof.
  intros Hraw. split.
  - intros Hlong.
    assert (Hin : In {| err_label := str "Shared Secret Value"; err_test := test_max |}
                     (schema raw)).
    { unfold schema. rewrite Hraw, !in_app_iff. left.
      apply field_errors_In. cbn [string_max].
      destruct (Z.leb_spec (Z.of_nat (length v)) 10000); [lia | now left]. }
    assert (Hne : schema raw <> []) by (intros Hnil; now rewrite Hnil in Hin).
    exists (schema raw). rewrite handleSubmit_invalid by assumption.
    split; [reflexivity |]. split; [exact Hin |]. split; [reflexivity |].
    now apply events_of_invalid.
  - intros Hshort. unfold schema. rewrite Hraw, !in_app_iff.
    intros [Hin | [Hin | [Hin | Hin]]].
    + apply field_errors_In_inv in Hin. cbn [string_max] in Hin.
      destruct Hin as [Hin | [Hin | []]]; [| discriminate Hin].
      injection Hin as Hin. apply Z.leb_gt in Hin. lia.
    + pose proof (field_errors_label "Expires After Views"
                    (number_tests 1 (raw_expiresAfterViews raw))) as Hl.
      rewrite Forall_forall in Hl. apply list_elem_of_In, Hl in Hin.
      vm_compute in Hin. discriminate Hin.
    + pose proof (field_errors_label "Expiration Value"
                    (number_tests 1 (raw_expiresInValue raw))) as Hl.
      rewrite Forall_forall in Hl. apply list_elem_of_In, Hl in Hin.
      vm_compute in Hin. discriminate Hin.
    + pose proof (field_errors_label "Expiration Unit"
                    [(test_required, string_required (raw_expiresInUnit raw))]) as Hl.
      rewrite Forall_forall in Hl. apply list_elem_of_In, Hl in Hin.
      vm_compute in Hin. discriminate Hin.
Qed.

End Submission.

Lemma C5_unknown_unit_leaves_expiry_at_now_witness :
  handleSubmit (platform := utc_platform) example_env
               (example_form (str "hello") 1 1 "Years") empty_world
  = (Ok Submitted,
     submitted (platform := utc_platform) example_env (example_data "Years" 1) empty_world)
  /\ map expiresAt
         (storage_view (events_of (handleSubmit (platform := utc_platform) example_env
                                                (example_form (str "hello") 1 1 "Years"))
                                  empty_world))
     = [Int (now example_env)].
Proof.
  refine (proj2 (proj2 (C5_unknown_unit_leaves_expiry_at_now (platform := utc_platform)
                          example_env (example_form (str "hello") 1 1 "Years") empty_world
                          (str "Years") eq_refl _) _)
                (example_data "Years" 1) eq_refl eq_refl).
  - vm_compute. reflexivity.
  - discriminate.
Defined.

(** The unit "Years" is outside the table, the form is accepted and a record
    is sent to the store. *)
Lemma C5_counterexample : ~ unknown_unit_is_rejected.
Proof.
  intros Hclaim.
  specialize (Hclaim utc_platform example_env (example_form (str "hello") 1 1 "Years")
                     empty_world (str "Years") eq_refl).
  assert (Hunit : unitLength (str "Years") = None) by (vm_compute; reflexivity).
  specialize (Hclaim Hunit). vm_compute in Hclaim. discriminate Hclaim.
Qed.

Lemma C6_missing_or_nonpositive_value_is_rejected_witness :
  exists errors test,
    handleSubmit (platform := utc_platform) example_env
                 (example_form (str "hello") 1 0 "Hours") empty_world
    = (Ok (Invalid errors), empty_world)
    /\ In {| err_label := str "Expiration Value"; err_test := test |} errors
    /\ (test = test_required \/ test = test_min)
    /\ storage_view (events_of (handleSubmit (platform := utc_platform) example_env
                                             (example_form (str "hello") 1 0 "Hours"))
                               empty_world) = [].
Proof.
  apply (C6_missing_or_nonpositive_value_is_rejected (platform := utc_platform) example_env
           (example_form (str "hello") 1 0 "Hours") empty_world).
  right. exists 0. split; [reflexivity | lia].
Defined.

Lemma C7_plaintext_length_limit_witness :
  exists errors,
    handleSubmit (platform := utc_platform) example_env
                 (example_form long_plaintext 1 1 "Hours") empty_world
    = (Ok (Invalid errors), empty_world)
    /\ In {| err_label := str "Shared Secret Value"; err_test := test_max |} errors
    /\ sealings (snd (handleSubmit (platform := utc_platform) example_env
                                   (example_form long_plaintext 1 1 "Hours") empty_world))
       = sealings empty_world
    /\ events_of (handleSubmit (platform := utc_platform) example_env
                               (example_form long_plaintext 1 1 "Hours")) empty_world = [].
Proof.
  apply (proj1 (C7_plaintext_length_limit (platform := utc_platform) example_env
                  (example_form long_plaintext 1 1 "Hours") empty_world
                  long_plaintext eq_refl)).
  vm_compute. reflexivity.
Defined.

(** ** Both limits on a created record *)

Section BothLimits.
Context {platform : Platform}.
Import Time.

Lemma TimeClip_cases (x : Number) :
  TimeClip x = NaN \/ exists t, TimeClip x = Int t /\ Z.abs t <= maxTime.
Proof.
  destruct x as [| t | m e | s]; cbn [TimeClip]; [now left | | | now left].
  - destruct (Z.ltb_spec maxTime (Z.abs t)); [now left | right; now exists t].
  - destruct (Z.ltb_spec maxTime (Z.abs (Z.quot m (2 ^ Z.pos e))));
      [now left | right; now eexists].
Qed.

Lemma local_plus_cases now len n :
  local_plus now len n = NaN \/ exists t, local_plus now len n = Int t /\ Z.abs t <= maxTime.
Proof. apply TimeClip_cases. Qed.

(** C10 (amended).  A record reaches the store only from a form whose view
    count and expiration value are numbers of at least 1 (an integer, a
    fraction or the positive infinity: the schema asks for no integer), and
    it carries that view count as it is.  Its expiry is what the Date of the
    submission holds.  For a unit outside the table that is the current
    time.  For a unit of the table it is a time value within the range of
    Date or NaN (an invalid Date, no timestamp): NaN for an infinite value;
    and for an integer value [n], with clock, host and value in the range
    where the sums of the Date methods are exact, the instant of the
    wall-clock addition when that is within 8.64e15 ms of the epoch, and NaN
    when it is not. *)
Theorem C10_created_records_carry_both_limits
    (env : Env) (raw : RawForm) (w : World) (p : Payload) :
  In p (storage_view (events_of (handleSubmit env raw) w)) ->
  exists (views v : Number) (u : jsstring),
    raw_expiresAfterViews raw = Some views /\ at_least 1 views = true
    /\ raw_expiresInValue raw = Some v /\ at_least 1 v = true
    /\ raw_expiresInUnit raw = Some u
    /\ expiresAfterViews p = views
    /\ (unitLength u = None -> expiresAt p = Int (now env))
    /\ (forall len, unitLength u = Some len ->
        (expiresAt p = NaN \/ exists t, expiresAt p = Int t /\ Z.abs t <= maxTime)
        /\ (finite v = false -> expiresAt p = NaN)
        /\ (forall n, v = Int n -> exact_for (now env) n len ->
            let local := LocalTime (now env) + n * len in
            let t := local - LocalTZA local false in
            (Z.abs t <= maxTime -> expiresAt p = Int t)
            /\ (maxTime < Z.abs t -> expiresAt p = NaN))).
Proof.
  intros Hin. apply stored_by_handleSubmit in Hin as (data & Hr & ->).
  destruct (resolver_accepts raw data Hr)
    as (_ & Hviews & Hn & Hu & _ & _ & Hv1 & Hn1 & _).
  exists (form_expiresAfterViews data), (expiresInValue data), (expiresInUnit data).
  cbn [storedPayload expiresAfterViews expiresAt].
  repeat (split; [assumption |]). split; [reflexivity |]. split.
  - intros Hnone. unfold expiry. now rewrite Hnone.
  - intros len Hlen. unfold expiry. rewrite Hlen.
    destruct (expiresInValue data) as [| n | m e | s] eqn:Hv; [discriminate Hn1 | | |].
    + apply Z.leb_le in Hn1. destruct (Z.eqb_spec n 0); [lia |].
      split; [apply local_plus_cases |]. split; [discriminate |].
      intros n' [= <-] _. unfold local_plus. cbn [UTC]. cbv zeta.
      split; [apply TimeClip_in_range | apply TimeClip_out_of_range].
    + assert (Hm : truthy (Frac m e) = true).
      { cbn [truthy at_least] in *. apply Z.leb_le in Hn1.
        pose proof (Z.pow_pos_nonneg 2 (Z.pos e)). destruct (Z.eqb_spec m 0); [lia | reflexivity]. }
      rewrite Hm. split; [| split; [discriminate | intros n' [=]]].
      unfold local_plus_number. destruct (ToInteger _); [apply local_plus_cases | now left].
    + cbn [truthy]. destruct s; [discriminate Hn1 |].
      assert (Hnan : local_plus_number (now env) (expiresInUnit data) (Infinity false) = NaN).
      { unfold local_plus_number, addend.
        now destruct (jsstring_eqb (str "Weeks") (expiresInUnit data)). }
      rewrite Hnan. split; [now left |]. split; [reflexivity | intros n' [=]].
Qed.

End BothLimits.

Lemma C10_created_records_carry_both_limits_witness :
  exists (views v : Number) (u : jsstring),
    raw_expiresAfterViews (example_form (str "hello") 1 1 "Hours") = Some views
    /\ at_least 1 views = true
    /\ raw_expiresInValue (example_form (str "hello") 1 1 "Hours") = Some v
    /\ at_least 1 v = true
    /\ raw_expiresInUnit (example_form (str "hello") 1 1 "Hours") = Some u
    /\ expiresAfterViews (storedPayload (platform := utc_platform) example_env
                                        (example_data "Hours" 1) empty_world) = views
    /\ (unitLength u = None ->
        expiresAt (storedPayload (platform := utc_platform) example_env
                                 (example_data "Hours" 1) empty_world)
        = Int (now example_env))
    /\ (forall len, unitLength u = Some len ->
        (expiresAt (storedPayload (platform := utc_platform) example_env
                                  (example_data "Hours" 1) empty_world) = NaN
         \/ exists t,
              expiresAt (storedPayload (platform := utc_platform) example_env
                                       (example_data "Hours" 1) empty_world) = Int t
              /\ Z.abs t <= Time.maxTime)
        /\ (finite v = false ->
            expiresAt (storedPayload (platform := utc_platform) example_env
                                     (example_data "Hours" 1) empty_world) = NaN)
        /\ (forall n, v = Int n ->
            exact_for (platform := utc_platform) (now example_env) n len ->
            let local := LocalTime (platform := utc_platform) (now example_env) + n * len in
            let t := local - LocalTZA (Platform := utc_platform) local false in
            (Z.abs t <= Time.maxTime ->
             expiresAt (storedPayload (platform := utc_platform) example_env
                                      (example_data "Hours" 1) empty_world) = Int t)
            /\ (Time.maxTime < Z.abs t ->
                expiresAt (storedPayload (platform := utc_platform) example_env
                                         (example_data "Hours" 1) empty_world) = NaN))).
Proof.
  apply (C10_created_records_carry_both_limits (platform := utc_platform) example_env
           (example_form (str "hello") 1 1 "Hours") empty_world).
  vm_compute. left. reflexivity.
Defined.

(** The schema accepts 100100000 days, and the record sent to the store has
    an invalid Date for its expiry. *)
Lemma C10_counterexample : ~ every_record_has_a_timestamp.
Proof.
  intros Hclaim.
  destruct (Hclaim utc_platform example_env (example_form (str "hello") 1 100100000 "Days")
                   empty_world
                   (storedPayload (platform := utc_platform) example_env
                                  (example_data "Days" 100100000) empty_world))
    as [t Ht].
  - vm_compute. left. reflexivity.
  - vm_compute in Ht. discriminate Ht.
Qed.

(** ** The Date object of a submission *)

Section InPlace.
Context {platform : Platform}.

Ltac in_place :=
  intros this v [ds dr se tr]; run_date; cbn [dates drawn sealings trace];
  destruct (ds !! this) as [[| t | m e | s] |] eqn:Hlookup; run_date; cbn [fst snd];
  rewrite ?Hlookup; run_date; cbn [fst snd dates drawn sealings trace];
  repeat split; try reflexivity; try congruence;
  try apply length_insert;
  try (intros l Hl; now apply list_lookup_insert_ne);
  try (intros u [= <-]; apply list_lookup_insert_eq; now apply lookup_lt_Some in Hlookup).

Lemma table_updates_in_place :
  Forall (fun item => updates_in_place (item_action item)) expirationUnitsAndActions.
Proof.
  unfold expirationUnitsAndActions.
  repeat (apply List.Forall_cons; [unfold updates_in_place; cbn [item_action]; in_place |]).
  apply List.Forall_nil.
Qed.

(** C8 (amended).  The expiry sent to the store is a function of the current
    time, the unit and the value (and of the host's time zone): [expiry].  The
    code computes it in place: each action of the table writes the new time
    value into the Date object it is given, changes no other object and
    allocates none, and returns the number now held by that object; the
    handler passes the Date it has allocated for this submission, after all the
    Date objects that existed before, and those are unchanged. *)
Theorem C8_expiry_is_a_function_computed_in_place (env : Env) (data : FormData) (w : World) :
  Forall (fun item => updates_in_place (item_action item)) expirationUnitsAndActions
  /\ map expiresAt (storage_view (events_of (onFormSubmit env data) w))
     = (if has_id (currentOrgId env)
        then [expiry (now env) (expiresInUnit data) (expiresInValue data)]
        else [])
  /\ dates (snd (onFormSubmit env data w))
     = (if has_id (currentOrgId env)
        then dates w ++ [expiry (now env) (expiresInUnit data) (expiresInValue data)]
        else dates w).
Proof.
  split; [apply table_updates_in_place |].
  destruct (has_id (currentOrgId env)) eqn:Hid.
  - rewrite storage_view_onFormSubmit, onFormSubmit_run by assumption.
    split; reflexivity.
  - rewrite events_of_onFormSubmit, Hid, onFormSubmit_no_org by assumption.
    split; reflexivity.
Qed.

End InPlace.

(** The action for Minutes applied to a Date object holding the epoch: the
    object holds another time value afterwards. *)
Lemma C8_counterexample : ~ actions_do_not_mutate.
Proof.
  intros Hclaim.
  specialize (Hclaim utc_platform
                (hd {| item_unit := []; item_action := fun _ _ => ret NaN |}
                    (expirationUnitsAndActions (platform := utc_platform)))
                0%nat (Int 5) (with_date empty_world (Int 0))
                ltac:(left; reflexivity)).
  vm_compute in Hclaim. discriminate Hclaim.
Qed.

(** ** The view budget of a record *)

Module StoreFacts.
Import Store.

Lemma redeem_consumed (n : Z) (r0 : ShareRecord) (id : nat) (k : Z)
    (st : gmap nat ShareRecord) (q : Request) :
  0 <= k ->
  consumed n r0 id k st ->
  in_time r0 q ->
  consumed n r0 id (k + 1) (snd (redeem (req_now q) id (req_verifier q) st))
  /\ succeeded (fst (redeem (req_now q) id (req_verifier q) st)) = (k <? n)
  /\ (n <= k -> fst (redeem (req_now q) id (req_verifier q) st) = inl Expired).
Proof.
  intros Hk (r & Hlookup & Hver & Hexp & Hmax & Hcount & Hstatus) [Hq Hnow].
  unfold redeem. rewrite Hlookup, Hstatus, Hexp, Hnow, Hq, <- Hver.
  unfold jsstring_eqb. rewrite bool_decide_eq_true_2 by reflexivity.
  destruct (Z.ltb_spec k n) as [Hlt | Hge]; cbn [is_active negb orb fst snd succeeded].
  - split; [| split; [reflexivity | lia]].
    eexists. split; [apply lookup_insert_eq |].
    cbn [verifier expiresAt maxViews viewsConsumed status reaches].
    rewrite Hcount.
    repeat split; try assumption; try reflexivity; [lia |].
    rewrite Hmax. cbn [reaches].
    destruct (Z.leb_spec n (Z.min k n + 1)), (Z.ltb_spec (k + 1) n); (reflexivity || lia).
  - split; [| split; [reflexivity | reflexivity]].
    exists r. repeat split; try assumption; [lia |].
    rewrite Hstatus. destruct (Z.ltb_spec k n), (Z.ltb_spec (k + 1) n); (reflexivity || lia).
Qed.

Lemma consumed_initial (n : Z) (r : ShareRecord) (id : nat) (st : gmap nat ShareRecord) :
  1 <= n -> st !! id = Some r -> status r = ACTIVE -> viewsConsumed r = 0 ->
  maxViews r = Some n -> consumed n r id 0 st.
Proof.
  intros Hn Hl Hs Hc Hm. exists r. repeat split; try assumption; [lia |].
  destruct (Z.ltb_spec 0 n); [assumption | lia].
Qed.

(** Redemptions in sequence: the first [n - k] succeed, every later one
    fails with [Expired]. *)
Lemma redeem_all_consumed (n : Z) (r0 : ShareRecord) (id : nat) (reqs : list Request) :
  forall (k : Z) (st : gmap nat ShareRecord),
    0 <= k -> consumed n r0 id k st -> Forall (in_time r0) reqs ->
    map succeeded (redeem_all id reqs st)
    = map (fun i => Z.of_nat i + k <? n) (seq 0 (length reqs))
    /\ Forall2 (fun i o => n <= Z.of_nat i + k -> o = inl Expired)
               (seq 0 (length reqs)) (redeem_all id reqs st).
Proof.
  induction reqs as [| q reqs IH]; intros k st Hk Hc Hreqs; cbn [redeem_all length seq map].
  - split; constructor.
  - apply Forall_cons_1 in Hreqs as [Hq Hreqs].
    destruct (redeem_consumed n r0 id k st q Hk Hc Hq) as (Hc' & Hok & Hfail).
    destruct (IH (k + 1) _ ltac:(lia) Hc' Hreqs) as [IHmap IHfail].
    rewrite <- seq_shift, map_map. split.
    + rewrite Hok, IHmap. cbn [Z.of_nat Z.add]. f_equal.
      apply map_ext. intros i. f_equal. lia.
    + constructor; [exact Hfail |].
      apply Forall2_fmap_l. eapply Forall2_impl; [exact IHfail |].
      cbv beta. intros i o Hi Hle. apply Hi. lia.
Qed.

Lemma successes_snoc outs o :
  successes (outs ++ [o]) = (successes outs + if succeeded o then 1 else 0)%nat.
Proof.
  unfold successes. rewrite List.filter_app, length_app. cbn [List.filter].
  destruct (succeeded o); reflexivity.
Qed.

(** The invariant of concurrent redemption: after [k] atomic steps the store
    has counted [min k n] views and as many requests have succeeded. *)
Lemma step_invariant (n : Z) (r0 : ShareRecord) (id : nat) (total : Z) (c c' : Config) :
  step id c c' ->
  (exists k, 0 <= k
             /\ k + Z.of_nat (length (pending c)) = total
             /\ Forall (in_time r0) (pending c)
             /\ consumed n r0 id k (store c)
             /\ Z.of_nat (successes (outcomes c)) = Z.min k n) ->
  exists k, 0 <= k
            /\ k + Z.of_nat (length (pending c')) = total
            /\ Forall (in_time r0) (pending c')
            /\ consumed n r0 id k (store c')
            /\ Z.of_nat (successes (outcomes c')) = Z.min k n.
Proof.
  intros Hstep (k & Hk & Hlen & Hpend & Hcons & Hsucc).
  destruct Hstep as [before after q st outs].
  cbn [pending store outcomes] in *.
  apply Forall_app in Hpend as [Hbefore Hq]. apply Forall_cons_1 in Hq as [Hq Hafter].
  destruct (redeem_consumed n r0 id k st q Hk Hcons Hq) as (Hcons' & Hok & _).
  exists (k + 1). split; [lia |]. split.
  { rewrite length_app in *. cbn [length] in Hlen. lia. }
  split; [apply Forall_app; now split |]. split; [exact Hcons' |].
  rewrite successes_snoc, Hok.
  destruct (Z.ltb_spec k n); lia.
Qed.

Lemma run_to_completion (id : nat) (reqs : list Request) :
  forall st outs,
    exists c, rtc (step id) {| pending := reqs; store := st; outcomes := outs |} c
              /\ pending c = [].
Proof.
  induction reqs as [| q reqs IH]; intros st outs.
  - eexists. split; [apply rtc_refl | reflexivity].
  - destruct (IH (snd (redeem (req_now q) id (req_verifier q) st))
                 (outs ++ [fst (redeem (req_now q) id (req_verifier q) st)]))
      as (c & Hrun & Hdone).
    exists c. split; [| exact Hdone].
    eapply rtc_l; [| exact Hrun]. apply (step_redeem id [] reqs q st outs).
Qed.

Lemma map_ltb_seq (m : nat) :
  map (fun i => Z.of_nat i + 0 <? Z.of_nat m) (seq 0 (S m)) = repeat true m ++ [false].
Proof.
  rewrite seq_S, map_app. cbn [map Nat.add]. f_equal.
  - assert (Hall : forall l : list nat,
               (forall i, In i l -> (i < m)%nat) ->
               map (fun i => Z.of_nat i + 0 <? Z.of_nat m) l = repeat true (length l)).
    { induction l as [| i l IH]; intros Hl; [reflexivity |].
      cbn [map length repeat]. rewrite IH by (intros j Hj; apply Hl; now right).
      f_equal. apply Z.ltb_lt. specialize (Hl i (or_introl eq_refl)). lia. }
    rewrite Hall by (intros i Hi%in_seq; lia). now rewrite length_seq.
  - f_equal. apply Z.ltb_ge. lia.
Qed.

(** C9.  For a record that is active, has counted no view and allows [n]
    views, and [n + 1] requests that carry its verifier and come before its
    expiry: redeemed one after the other, the first [n] succeed and the last
    fails with [Expired]; redeemed concurrently, every interleaving of their
    atomic steps can run to the end, never has more than [n] successes, and
    has exactly [n] when all have been served.  With [n = 1], two concurrent
    redemptions never both succeed. *)
Theorem C9_view_budget (n : Z) (id : nat) (r : ShareRecord) (st : gmap nat ShareRecord)
    (reqs : list Request) :
  1 <= n ->
  st !! id = Some r ->
  status r = ACTIVE ->
  viewsConsumed r = 0 ->
  maxViews r = Some n ->
  Forall (in_time r) reqs ->
  Z.of_nat (length reqs) = n + 1 ->
  map succeeded (redeem_all id reqs st) = repeat true (Z.to_nat n) ++ [false]
  /\ List.last (redeem_all id reqs st) (inl NotFound) = inl Expired
  /\ (forall c,
        rtc (step id) {| pending := reqs; store := st; outcomes := [] |} c ->
        (successes (outcomes c) <= Z.to_nat n)%nat
        /\ (pending c = [] -> successes (outcomes c) = Z.to_nat n))
  /\ exists c, rtc (step id) {| pending := reqs; store := st; outcomes := [] |} c
               /\ pending c = [].
Proof.
  intros Hn Hlookup Hstatus Hcount Hmax Hreqs Hlen.
  pose proof (consumed_initial n r id st Hn Hlookup Hstatus Hcount Hmax) as Hinit.
  destruct (redeem_all_consumed n r id reqs 0 st ltac:(lia) Hinit Hreqs) as [Hmap Hfail].
  assert (Hlen' : length reqs = S (Z.to_nat n)) by lia.
  split; [| split; [| split]].
  - rewrite Hmap, Hlen'. pose proof (map_ltb_seq (Z.to_nat n)) as Hseq.
    now rewrite Z2Nat.id in Hseq by lia.
  - rewrite Hlen', seq_S in Hfail. apply Forall2_app_inv_l in Hfail
      as (firsts & lasts & _ & Hlast & ->).
    apply Forall2_cons_inv_l in Hlast as (o & rest & Ho & Hrest & ->).
    apply Forall2_nil_inv_l in Hrest as ->.
    rewrite last_last. apply Ho. cbn [Nat.add]. lia.
  - intros c Hrun.
    assert (Hinv : exists k, 0 <= k
                     /\ k + Z.of_nat (length (pending c)) = n + 1
                     /\ Forall (in_time r) (pending c)
                     /\ consumed n r id k (store c)
                     /\ Z.of_nat (successes (outcomes c)) = Z.min k n).
    { revert c Hrun. apply rtc_ind_r.
      - exists 0. cbn [pending store outcomes].
        split; [lia |]. split; [lia |]. split; [assumption |]. split; [assumption |].
        unfold successes. cbn [List.filter length]. lia.
      - intros c1 c2 _ Hstep IH. eapply step_invariant; eassumption. }
    destruct Hinv as (k & Hk & Htotal & _ & _ & Hsucc). split; [lia |].
    intros Hdone. rewrite Hdone in Htotal. cbn [length] in Htotal. lia.
  - apply run_to_completion.
Qed.

End StoreFacts.

Lemma C9_view_budget_witness :
  map Store.succeeded (Store.redeem_all 0 example_requests {[0%nat := example_record]})
  = [true; false]
  /\ forall c,
       rtc (Store.step 0)
           {| Store.pending := example_requests;
              Store.store := {[0%nat := example_record]};
              Store.outcomes := [] |} c ->
       (Store.successes (Store.outcomes c) <= 1)%nat.
Proof.
  destruct (StoreFacts.C9_view_budget 1 0 example_record {[0%nat := example_record]}
              example_requests) as (Hseq & _ & Hconc & _).
  - lia.
  - apply lookup_singleton_eq.
  - reflexivity.
  - reflexivity.
  - reflexivity.
  - unfold example_requests, Store.in_time.
    repeat (apply List.Forall_cons; [split; vm_compute; reflexivity |]).
    apply List.Forall_nil.
  - reflexivity.
  - split; [exact Hseq |]. intros c Hrun. apply (Hconc c Hrun).
Defined.

(* ===================================================================== *)
(** * Further properties of AddShareSecretModal.tsx *)
(* ===================================================================== *)

Section FormAcceptance.
Context {platform : Platform}.

(** X1.  The resolver accepts a form, with the typed data [data], exactly
    when the plaintext is present, not empty and of at most 10000 code
    units, the view count and the expiration value are numbers of at least
    1, and the unit is a present, non-empty string; the data then holds
    these four values unchanged.  Nothing else is checked: the unit need not
    be one of the table, and a number need not be an integer.  The numbers
    of at least 1 are the integers from 1 on, the fractions [m / 2^e] with
    [2^e <= m], and the positive infinity. *)
Theorem X1_resolver_accepts_exactly (raw : RawForm) (data : FormData) :
  (resolver raw = inr data <->
   (raw_value raw = Some (value data)
    /\ value data <> []
    /\ Z.of_nat (length (value data)) <= 10000
    /\ raw_expiresAfterViews raw = Some (form_expiresAfterViews data)
    /\ at_least 1 (form_expiresAfterViews data) = true
    /\ raw_expiresInValue raw = Some (expiresInValue data)
    /\ at_least 1 (expiresInValue data) = true
    /\ raw_expiresInUnit raw = Some (expiresInUnit data)
    /\ expiresInUnit data <> []))
  /\ (forall a : Number,
        at_least 1 a = true <->
        (exists z, a = Int z /\ 1 <= z)
        \/ (exists m e, a = Frac m e /\ 2 ^ Z.pos e <= m)
        \/ a = Infinity false).
Proof.
  split; [split |].
  - intros Hr.
    destruct (resolver_accepts raw data Hr)
      as (Hv & Hviews & Hn & Hu & Hne & Hlen & Hv1 & Hn1 & Hune).
    repeat (split; [assumption |]). assumption.
  - intros (Hv & Hne & Hlen & Hviews & Hv1 & Hn & Hn1 & Hu & Hune).
    assert (Hs : schema raw = []).
    { unfold schema. rewrite Hv, Hu.
      rewrite (proj2 (field_errors_nil "Expires After Views" _))
        by (apply number_tests_pass; eauto).
      rewrite (proj2 (field_errors_nil "Expiration Value" _))
        by (apply number_tests_pass; eauto).
      rewrite (proj2 (field_errors_nil "Shared Secret Value" _)).
      - apply field_errors_nil. cbn. destruct (expiresInUnit data); [congruence | reflexivity].
      - cbn. destruct (Z.leb_spec (Z.of_nat (length (value data))) 10000); [| lia].
        destruct (value data); [congruence | reflexivity]. }
    unfold resolver. rewrite Hs, Hv, Hviews, Hn, Hu. now destruct data.
  - intros [| z | m e | s]; cbn [at_least].
    + split; [discriminate | intros [(z & [=] & _) | [(m & e & [=] & _) | [=]]]].
    + rewrite Z.leb_le. split.
      * intros Hz. left. now exists z.
      * intros [(z' & [= <-] & Hz) | [(m & e & [=] & _) | [=]]]. exact Hz.
    + rewrite Z.leb_le, Z.mul_1_l. split.
      * intros Hm. right. left. now exists m, e.
      * intros [(z & [=] & _) | [(m' & e' & [= <- <-] & Hm) | [=]]]. exact Hm.
    + destruct s; cbn [negb].
      * split; [discriminate | intros [(z & [=] & _) | [(m & e & [=] & _) | [=]]]].
      * split; [intros _; right; now right | reflexivity].
Qed.

End FormAcceptance.

Section HandlerOutcomes.
Context {platform : Platform}.

Lemma submitted_changes env data w : submitted env data w <> w.
Proof.
  intros Heq. apply (f_equal sealings) in Heq. cbn [submitted sealings] in Heq. lia.
Qed.

(** X2.  The handler never rejects: whatever the store answers and whatever
    the form data are, [onFormSubmit] returns normally, and so does
    [handleSubmit]; a rejection of the store ends in the [catch] block. *)
Theorem X2_handler_never_rejects (env : Env) (raw : RawForm) (data : FormData) (w : World) :
  fst (onFormSubmit env data w) = Ok tt
  /\ exists r : SubmitResult, fst (handleSubmit env raw w) = Ok r.
Proof.
  assert (Hrun : forall d, fst (onFormSubmit env d w) = Ok tt).
  { intros d. destruct (has_id (currentOrgId env)) eqn:Hid.
    - now rewrite onFormSubmit_run.
    - now rewrite onFormSubmit_no_org. }
  split; [apply Hrun |].
  unfold handleSubmit. destruct (resolver raw) as [errors | d].
  - now exists (Invalid errors).
  - exists Submitted. unfold bind, ret. specialize (Hrun d).
    destruct (onFormSubmit env d w) as [[[] | e] w']; [reflexivity | discriminate Hrun].
Qed.

(** X3.  The handler has no effect at all (no random byte drawn, no Date
    allocated, no call to the store, no notification, no link) exactly when
    no organisation is selected, that is when [currentOrg?.id] is undefined
    or the empty string; the form is then still reported as submitted. *)
Theorem X3_no_organisation_no_effect (env : Env) (data : FormData) (w : World) :
  snd (onFormSubmit env data w) = w
  <-> (currentOrgId env = None \/ currentOrgId env = Some []).
Proof.
  split.
  - intros Hsame. destruct (has_id (currentOrgId env)) eqn:Hid.
    + rewrite onFormSubmit_run in Hsame by assumption.
      now apply submitted_changes in Hsame.
    + destruct (currentOrgId env) as [[| c id] |]; auto. discriminate Hid.
  - intros Hnone. rewrite onFormSubmit_no_org; [reflexivity |].
    destruct Hnone as [-> | ->]; reflexivity.
Qed.

(** X4.  A link is published only when the store has accepted the record of
    this submission: the link then carries the id the store returned, and the
    submission logs no error and shows no error notification. *)
Theorem X4_link_only_after_acceptance (env : Env) (data : FormData) (w : World)
    (link : jsstring) :
  In (SetNewSharedSecret link) (events_of (onFormSubmit env data) w) ->
  (exists id : jsstring,
     storeResponse env (storedPayload env data w) = Ok id
     /\ link = shareLink (origin env) id (verifier env w) (rawKey env w))
  /\ (forall e, ~ In (ConsoleError e) (events_of (onFormSubmit env data) w))
  /\ (forall text, ~ In (CreateNotification text (str "error"))
                        (events_of (onFormSubmit env data) w)).
Proof.
  rewrite events_of_onFormSubmit. destruct (has_id (currentOrgId env)); [| intros []].
  unfold submitEvents, failureEvents.
  destruct (storeResponse env (storedPayload env data w)) as [id | e].
  - intros [Hin | [Hin | [Hin | []]]]; try discriminate Hin.
    injection Hin as <-. split; [now exists id |].
    split.
    + intros e [Hin | [Hin | [Hin | []]]]; discriminate Hin.
    + intros text [Hin | [Hin | [Hin | []]]]; discriminate Hin.
  - intros [Hin | [Hin | [Hin | []]]]; try discriminate Hin.
    destruct (response_status_is e 401); discriminate Hin.
Qed.


End HandlerOutcomes.

Lemma X4_link_only_after_acceptance_witness :
  exists id : jsstring,
    storeResponse example_env
      (storedPayload (platform := utc_platform) example_env (example_data "Hours" 1)
                     empty_world) = Ok id
    /\ shareLink (origin example_env) (str "7c9e6679") (verifier example_env empty_world)
                 (rawKey example_env empty_world)
       = shareLink (origin example_env) id (verifier example_env empty_world)
                   (rawKey example_env empty_world).
Proof.
  apply (X4_link_only_after_acceptance (platform := utc_platform) example_env
           (example_data "Hours" 1) empty_world
           (shareLink (origin example_env) (str "7c9e6679") (verifier example_env empty_world)
                      (rawKey example_env empty_world))).
  vm_compute. right. left. reflexivity.
Defined.


Section KeysAndLinks.
Context {platform : Platform}.

Lemma hex_digit_inj d d' :
  0 <= d < 16 -> 0 <= d' < 16 -> hex_digit d = hex_digit d' -> d = d'.
Proof.
  unfold hex_digit. intros Hd Hd'.
  destruct (Z.ltb_spec d 10), (Z.ltb_spec d' 10); lia.
Qed.

Lemma byte_val_inj b b' : byte_val b = byte_val b' -> b = b'.
Proof.
  unfold byte_val. intros Heq. apply N2Z.inj in Heq.
  pose proof (Byte.of_to_N b) as Hb. pose proof (Byte.of_to_N b') as Hb'.
  rewrite Heq in Hb. congruence.
Qed.

Lemma hex_of_byte_inj b b' : hex_of_byte b = hex_of_byte b' -> b = b'.
Proof.
  unfold hex_of_byte. intros [= Hhi Hlo].
  pose proof (byte_val_range b). pose proof (byte_val_range b').
  apply hex_digit_inj in Hhi; [| div_lia | div_lia].
  apply hex_digit_inj in Hlo; [| div_lia | div_lia].
  apply byte_val_inj. div_lia.
Qed.

Lemma toString_hex_inj bs : forall bs', toString_hex bs = toString_hex bs' -> bs = bs'.
Proof.
  unfold toString_hex. induction bs as [| b bs IH]; intros [| b' bs']; cbn [map concat];
    try reflexivity; try discriminate.
  unfold hex_of_byte at 1 3. cbn [app]. intros [= Hhi Hlo Hrest].
  f_equal; [| now apply IH].
  apply hex_of_byte_inj. unfold hex_of_byte. now rewrite Hhi, Hlo.
Qed.

(** X6.  Two submissions have the same raw key only if they drew the same
    16 bytes from the random source: the hexadecimal encoding of the key is
    one-to-one, so the key carries all 128 bits drawn. *)
Theorem X6_raw_key_determines_bytes (env env' : Env) (w w' : World) :
  rawKey env w = rawKey env' w'
  <-> map (entropy env) (seq (drawn w) 16) = map (entropy env') (seq (drawn w') 16).
Proof.
  unfold rawKey. split; [apply toString_hex_inj | now intros ->].
Qed.

End KeysAndLinks.

Section LinkAndState.
Context {platform : Platform}.

Lemma shareLink_nonempty o id v k : shareLink o id v k <> [].
Proof.
  unfold shareLink. intros Hnil. apply app_eq_nil in Hnil as [_ Hnil].
  apply app_eq_nil in Hnil as [Hnil _]. discriminate Hnil.
Qed.

Lemma shareLink_parts o id v k :
  length v = 64%nat -> length k = 32%nat ->
  let link := shareLink o id v k in
  drop (length link - 32) link = k
  /\ take 64 (drop (length link - 97) link) = v
  /\ link !! (length link - 33)%nat = Some 45.
Proof.
  intros Hv Hk link. unfold link, shareLink.
  set (pre := o ++ str "/shared/secret/" ++ id ++ str "?key=").
  replace (o ++ str "/shared/secret/" ++ id ++ str "?key=" ++ v ++ str "-" ++ k)
    with (pre ++ v ++ str "-" ++ k) by (unfold pre; now rewrite <- !app_assoc).
  assert (Hlen : length (pre ++ v ++ str "-" ++ k) = (length pre + 97)%nat).
  { rewrite !length_app, Hv, Hk. cbn. lia. }
  rewrite Hlen. split; [| split].
  - replace (length pre + 97 - 32)%nat with (length (pre ++ v ++ str "-")).
    + rewrite !app_assoc. rewrite <- (app_assoc pre v). apply drop_app_length.
    + rewrite !length_app, Hv. cbn. lia.
  - replace (length pre + 97 - 97)%nat with (length pre) by lia.
    rewrite drop_app_length. rewrite <- Hv. apply take_app_length.
  - replace (length pre + 97 - 33)%nat with (length (pre ++ v) + 0)%nat
      by (rewrite length_app, Hv; lia).
    rewrite app_assoc. unfold jsstring. rewrite lookup_app_r by lia.
    replace (length (pre ++ v) + 0 - length (pre ++ v))%nat with 0%nat by lia. reflexivity.
Qed.

(** X8.  Every link the handler publishes can be taken apart without
    knowing the origin or the id: its last 32 characters are the raw key, the
    character before them is the separator ["-"], and the 64 characters
    before the separator are the verifier. *)
Theorem X8_link_ends_with_verifier_and_key (env : Env) (data : FormData) (w : World) :
  Forall (fun e =>
            match e with
            | SetNewSharedSecret link =>
                drop (length link - 32) link = rawKey env w
                /\ take 64 (drop (length link - 97) link) = verifier env w
                /\ link !! (length link - 33)%nat = Some 45
            | _ => True
            end)
         (events_of (onFormSubmit env data) w).
Proof.
  rewrite events_of_onFormSubmit. destruct (has_id (currentOrgId env)); [| constructor].
  unfold submitEvents, failureEvents.
  destruct (storeResponse env (storedPayload env data w)) as [id | e].
  - repeat (apply List.Forall_cons; [try exact I |]); [| apply List.Forall_nil].
    apply shareLink_parts; [apply verifier_length | apply rawKey_length].
  - repeat (apply List.Forall_cons; [try exact I |]); [| apply List.Forall_nil].
    destruct (response_status_is e 401); exact I.
Qed.

(** X9.  After a submission from the form view (no link shown before), the
    link view is shown, [hasSharedSecret], exactly when the form was valid, an
    organisation was selected and the store accepted the record: a rejected
    or invalid submission leaves the form in place. *)
Theorem X9_link_view_iff_created (env : Env) (raw : RawForm) (w : World) :
  hasSharedSecret (newSharedSecret_after [] (events_of (handleSubmit env raw) w)) = true
  <-> exists data id,
        resolver raw = inr data
        /\ has_id (currentOrgId env) = true
        /\ storeResponse env (storedPayload env data w) = Ok id.
Proof.
  destruct (resolver raw) as [errors | data] eqn:Hr.
  - rewrite (events_of_rejected _ _ _ _ Hr). cbn. split; [discriminate |].
    intros (d & id & Hd & _). discriminate Hd.
  - destruct (handleSubmit_valid env raw data w Hr) as [_ ->].
    rewrite events_of_onFormSubmit.
    destruct (has_id (currentOrgId env)).
    + unfold submitEvents, failureEvents.
      destruct (storeResponse env (storedPayload env data w)) as [id | e] eqn:Hs.
      * cbn [newSharedSecret_after fold_left]. split.
        -- intros _. exists data, id. auto.
        -- intros _. destruct (shareLink _ _ _ _) eqn:Hl; [| reflexivity].
           now apply shareLink_nonempty in Hl.
      * split.
        -- destruct (response_status_is e 401); cbn; discriminate.
        -- intros (d & id & [= <-] & _ & Hd). rewrite Hs in Hd. discriminate Hd.
    + cbn. split; [discriminate |]. intros (d & id & _ & Hd & _). discriminate Hd.
Qed.

End LinkAndState.

Section Units.
Context {platform : Platform}.
Import Time.

Lemma unitLength_Minutes : unitLength (str "Minutes") = Some msPerMinute.
Proof. vm_compute. reflexivity. Qed.

Lemma unitLength_Hours : unitLength (str "Hours") = Some msPerHour.
Proof. vm_compute. reflexivity. Qed.

Lemma unitLength_Days : unitLength (str "Days") = Some msPerDay.
Proof. vm_compute. reflexivity. Qed.

Lemma unitLength_Weeks : unitLength (str "Weeks") = Some (7 * msPerDay).
Proof. vm_compute. reflexivity. Qed.

Lemma stored_expiries_onFormSubmit env data w :
  stored_expiries (onFormSubmit env data) w
  = if has_id (currentOrgId env)
    then [expiry (now env) (expiresInUnit data) (expiresInValue data)]
    else [].
Proof.
  unfold stored_expiries. rewrite events_of_onFormSubmit.
  destruct (has_id (currentOrgId env)); [| reflexivity].
  now rewrite storage_view_submitEvents.
Qed.

Lemma expiry_scale now u u' len k n :
  unitLength u = Some (k * len) -> unitLength u' = Some len -> k <> 0 ->
  expiry now u (Int n) = expiry now u' (Int (k * n)).
Proof.
  intros Hu Hu' Hk. unfold expiry. rewrite Hu, Hu'.
  destruct (Z.eqb_spec n 0) as [Hn | Hn], (Z.eqb_spec (k * n) 0) as [Hkn | Hkn];
    try reflexivity; try nia.
  unfold local_plus. do 4 f_equal. ring.
Qed.

(** X10.  The four units agree with one another on every host, for a clock
    and a value in the range where the sums of the Date methods are exact:
    the record sent for [n] Weeks has the expiry of the record sent for
    [7 * n] Days, [n] Days that of [24 * n] Hours, and [n] Hours that of
    [60 * n] Minutes, although [setDate], [setHours] and [setMinutes] rebuild
    the time in different ways. *)
Theorem X10_units_agree (env : Env) (data : FormData) (w : World) (n : Z) :
  exact_for (now env) n (7 * msPerDay) ->
  stored_expiries (onFormSubmit env (with_expiration data (str "Weeks") (Int n))) w
  = stored_expiries (onFormSubmit env (with_expiration data (str "Days") (Int (7 * n)))) w
  /\ stored_expiries (onFormSubmit env (with_expiration data (str "Days") (Int n))) w
     = stored_expiries (onFormSubmit env (with_expiration data (str "Hours") (Int (24 * n)))) w
  /\ stored_expiries (onFormSubmit env (with_expiration data (str "Hours") (Int n))) w
     = stored_expiries (onFormSubmit env (with_expiration data (str "Minutes") (Int (60 * n)))) w.
Proof.
  intros _.
  rewrite !stored_expiries_onFormSubmit. cbn [with_expiration expiresInUnit expiresInValue].
  destruct (has_id (currentOrgId env)); [| repeat split].
  split; [| split]; f_equal.
  - apply (expiry_scale _ _ _ msPerDay 7); [apply unitLength_Weeks | apply unitLength_Days | lia].
  - apply (expiry_scale _ _ _ msPerHour 24); [apply unitLength_Days | apply unitLength_Hours | lia].
  - apply (expiry_scale _ _ _ msPerMinute 60);
      [apply unitLength_Hours | apply unitLength_Minutes | lia].
Qed.

(** X11.  The guard of line 116 keeps a falsy value away from the table: for
    the value 0 and for NaN the Date is left as [new Date()] made it, whatever
    the unit, and the record is sent with the current time as its expiry
    instead of an invalid date. *)
Theorem X11_falsy_value_leaves_now (env : Env) (data : FormData) (w : World) (u : jsstring) :
  stored_expiries (onFormSubmit env (with_expiration data u (Int 0))) w
  = (if has_id (currentOrgId env) then [Int (now env)] else [])
  /\ stored_expiries (onFormSubmit env (with_expiration data u NaN)) w
     = (if has_id (currentOrgId env) then [Int (now env)] else []).
Proof.
  rewrite !stored_expiries_onFormSubmit. cbn [with_expiration expiresInUnit expiresInValue].
  unfold expiry. destruct (unitLength u); split; reflexivity.
Qed.

(** X12.  The actions of the table propagate an invalid date: applied to a
    Date object that holds NaN they return NaN and change nothing; applied
    with the value NaN to a valid Date they make it invalid and return
    NaN. *)
Theorem X12_actions_propagate_invalid_dates :
  Forall (fun item =>
            forall (w : World) (v : Number) (t0 : Z),
              item_action item (length (dates w)) v (with_date w NaN)
              = (Ok NaN, with_date w NaN)
              /\ item_action item (length (dates w)) NaN (with_date w (Int t0))
                 = (Ok NaN, with_date w NaN))
         expirationUnitsAndActions.
Proof.
  unfold expirationUnitsAndActions.
  repeat (apply List.Forall_cons;
          [intros w v t0; cbn [item_action]; split;
           run_date; repeat (rewrite lookup_fresh; run_date);
           rewrite ?insert_fresh; reflexivity |]).
  apply List.Forall_nil.
Qed.

End Units.

Section FixedOffset.
Context {platform : Platform}.
Import Time.

Lemma unitLength_positive u len : unitLength u = Some len -> 0 < len.
Proof.
  intros Hu. apply unitLength_cases in Hu as [[_ ->] | [[_ ->] | [[_ ->] | [_ ->]]]];
    reflexivity.
Qed.

Lemma local_plus_fixed (c now len n : Z) :
  (forall t b, LocalTZA t b = c) ->
  local_plus now len n = TimeClip (Int (now + n * len)).
Proof.
  intros Hfixed. unfold local_plus, LocalTime. cbn [UTC].
  rewrite (Hfixed now true), (Hfixed _ false). do 2 f_equal. lia.
Qed.

Lemma unitField_range u t : 0 <= unitField u t <= 59.
Proof.
  unfold unitField.
  destruct (jsstring_eqb _ _); [| destruct (jsstring_eqb _ _)].
  - unfold MinFromTime, MinutesPerHour, msPerMinute. div_lia.
  - unfold HourFromTime, HoursPerDay, msPerHour. div_lia.
  - pose proof (TimeFacts.DateFromTime_range t). lia.
Qed.

Lemma fieldLength_positive u : 0 < fieldLength u.
Proof. unfold fieldLength. repeat destruct (jsstring_eqb _ _); reflexivity. Qed.

Lemma at_least_truthy (v : Number) : at_least 1 v = true -> truthy v = true.
Proof.
  destruct v as [| z | m e | s]; cbn; intros Hv; try discriminate; try reflexivity.
  - apply Z.leb_le in Hv. destruct (Z.eqb_spec z 0); [lia | reflexivity].
  - apply Z.leb_le in Hv. pose proof (Z.pow_pos_nonneg 2 (Z.pos e)).
    destruct (Z.eqb_spec m 0); [lia | reflexivity].
Qed.

Lemma at_least_weaken c c' (v : Number) :
  c' <= c -> at_least c v = true -> at_least c' v = true.
Proof.
  intros Hc. destruct v as [| z | m e | s]; cbn [at_least]; try tauto.
  - rewrite !Z.leb_le. lia.
  - rewrite !Z.leb_le. pose proof (Z.pow_pos_nonneg 2 (Z.pos e)). nia.
Qed.

(** A value of at least 1 moves the field by at least one whole step, when
    the sum is finite. *)
Lemma local_plus_number_steps now u (v : Number) :
  at_least 1 v = true ->
  local_plus_number now u v = NaN
  \/ exists k, 1 <= k /\ local_plus_number now u v = local_plus now (fieldLength u) k.
Proof.
  intros Hv. unfold local_plus_number. cbv zeta.
  pose proof (unitField_range u (LocalTime now)) as Hf.
  assert (Ha : at_least 1 (addend u v) = true).
  { unfold addend. destruct (jsstring_eqb _ _); [| exact Hv].
    apply (at_least_weaken 7); [lia |]. now apply num_mul_7_at_least. }
  destruct (ToInteger _) as [a |] eqn:Hsum; [right | now left].
  exists (a - unitField u (LocalTime now)). split; [| reflexivity].
  assert (unitField u (LocalTime now) + 1 <= a); [| lia].
  assert (Hb : unitField u (LocalTime now) + 1 <= 2 ^ 53)
    by (change (2 ^ 53) with 9007199254740992; lia).
  assert (H1 : 0 <= 1) by lia.
  pose proof (num_add_at_least _ 1 _ (proj1 Hf) H1 Hb Ha) as Hsum1.
  refine (at_least_ToInteger _ _ _ _ Hsum1 Hsum). lia.
Qed.

(** What the Date holds for an accepted value and a unit of the table: the
    current time moved by at least one whole step on the local clock, unless
    it is invalid. *)
Lemma expiry_accepted now u len (v : Number) :
  unitLength u = Some len -> at_least 1 v = true ->
  expiry now u v = NaN
  \/ exists k flen, 1 <= k /\ 0 < flen /\ expiry now u v = local_plus now flen k.
Proof.
  intros Hlen Hv. unfold expiry. rewrite Hlen.
  pose proof (at_least_truthy v Hv) as Ht.
  destruct v as [| n | m e | s]; [discriminate Hv | | |].
  - right. exists n, len. cbn in Hv. apply Z.leb_le in Hv.
    destruct (Z.eqb_spec n 0); [lia |].
    split; [exact Hv |]. split; [now apply (unitLength_positive u) | reflexivity].
  - rewrite Ht. destruct (local_plus_number_steps now u _ Hv) as [-> | (k & Hk & ->)];
      [now left | right].
    exists k, (fieldLength u). split; [exact Hk |]. split; [apply fieldLength_positive | reflexivity].
  - rewrite Ht. destruct (local_plus_number_steps now u _ Hv) as [-> | (k & Hk & ->)];
      [now left | right].
    exists k, (fieldLength u). split; [exact Hk |]. split; [apply fieldLength_positive | reflexivity].
Qed.

(** X13.  On a host whose offset from UTC never changes, a record created
    from an accepted form never expires before it was created: its expiry, when
    it is a valid date, is at or after the current time, and it is the current
    time itself exactly when the unit is none of the table (such a record is
    expired as soon as it exists). *)
Theorem X13_expiry_never_before_now
    (env : Env) (raw : RawForm) (data : FormData) (w : World) (c : Z) :
  (forall t b, LocalTZA t b = c) ->
  resolver raw = inr data ->
  has_id (currentOrgId env) = true ->
  exists e : Number,
    stored_expiries (handleSubmit env raw) w = [e]
    /\ forall t : Z,
         e = Int t ->
         now env <= t /\ (t = now env <-> unitLength (expiresInUnit data) = None).
Proof.
  intros Hfixed Hr Hid. unfold stored_expiries.
  destruct (handleSubmit_valid env raw data w Hr) as [_ ->].
  fold (stored_expiries (onFormSubmit env data) w).
  rewrite stored_expiries_onFormSubmit, Hid. eexists. split; [reflexivity |].
  destruct (resolver_accepts raw data Hr) as (_ & _ & _ & _ & _ & _ & _ & Hn1 & _).
  destruct (unitLength (expiresInUnit data)) as [len |] eqn:Hlen.
  - destruct (expiry_accepted (now env) _ len _ Hlen Hn1) as [-> | (k & flen & Hk & Hpos & ->)];
      [intros t [=] |].
    rewrite (local_plus_fixed c) by assumption. unfold TimeClip.
    destruct (maxTime <? Z.abs (now env + k * flen)); [discriminate |].
    intros t [= <-]. split; [nia |]. split; [nia | discriminate].
  - unfold expiry. rewrite Hlen. intros t [= <-]. split; [lia |]. split; reflexivity.
Qed.

Lemma getHours_fresh w x :
  getHours (length (dates w)) (with_date w (Int x))
  = (Ok (Int (HourFromTime (LocalTime x))), with_date w (Int x)).
Proof. run_date. now rewrite lookup_fresh. Qed.

Lemma getMinutes_fresh w x :
  getMinutes (length (dates w)) (with_date w (Int x))
  = (Ok (Int (MinFromTime (LocalTime x))), with_date w (Int x)).
Proof. run_date. now rewrite lookup_fresh. Qed.

Lemma item_action_fresh item len w t0 n :
  In item expirationUnitsAndActions ->
  unitLength (item_unit item) = Some len ->
  item_action item (length (dates w)) (Int n) (with_date w (Int t0))
  = (Ok (local_plus t0 len n), with_date w (local_plus t0 len n)).
Proof.
  intros [<- | [<- | [<- | [<- | []]]]]; cbn [item_unit item_action]; intros Hlen.
  - rewrite unitLength_Minutes in Hlen. injection Hlen as <-. apply action_Minutes.
  - rewrite unitLength_Hours in Hlen. injection Hlen as <-. apply action_Hours.
  - rewrite unitLength_Days in Hlen. injection Hlen as <-. apply action_Days.
  - rewrite unitLength_Weeks in Hlen. injection Hlen as <-. apply action_Weeks.
Qed.

Lemma minute_of_day t :
  HourFromTime t * 60 + MinFromTime t = (t / msPerMinute) mod 1440.
Proof.
  unfold HourFromTime, MinFromTime, msPerHour, msPerMinute, HoursPerDay, MinutesPerHour.
  div_lia.
Qed.

(** X14.  On a host whose offset from UTC never changes, reading the Date
    back after an action of the table shows the local clock moved by exactly
    [n] unit lengths (for a result within the range of Date, and a clock and
    a value for which the sums of the Date methods are exact): [getHours] and
    [getMinutes] return the hour and minute of the old local time plus
    [n * len], that is the old time of day advanced by [n * len] minutes'
    worth modulo one day, with the minutes carried into the hours. *)
Theorem X14_readers_follow_the_action
    (item : UnitAction) (len : Z) (w : World) (t0 n c : Z) :
  In item expirationUnitsAndActions ->
  unitLength (item_unit item) = Some len ->
  (forall t b, LocalTZA t b = c) ->
  exact_for t0 n len ->
  Z.abs (t0 + n * len) <= maxTime ->
  (let* _ := item_action item (length (dates w)) (Int n) in
   let* h := getHours (length (dates w)) in
   let* m := getMinutes (length (dates w)) in
   ret (h, m)) (with_date w (Int t0))
  = (Ok (Int (HourFromTime (LocalTime t0 + n * len)),
         Int (MinFromTime (LocalTime t0 + n * len))),
     with_date w (Int (t0 + n * len)))
  /\ HourFromTime (LocalTime t0 + n * len) * 60 + MinFromTime (LocalTime t0 + n * len)
     = (HourFromTime (LocalTime t0) * 60 + MinFromTime (LocalTime t0)
        + n * (len / msPerMinute)) mod 1440.
Proof.
  intros Hin Hlen Hfixed _ Hrange. split.
  - rewrite (bind_run _ _ _ _ _ (item_action_fresh item len w t0 n Hin Hlen)).
    rewrite (local_plus_fixed c) by assumption. rewrite TimeClip_in_range by assumption.
    rewrite (bind_run _ _ _ _ _ (getHours_fresh w _)).
    rewrite (bind_run _ _ _ _ _ (getMinutes_fresh w _)).
    unfold ret, LocalTime. rewrite !Hfixed.
    replace (t0 + n * len + c) with (t0 + c + n * len) by lia. reflexivity.
  - rewrite !minute_of_day. rewrite Z.add_mod_idemp_l by lia. f_equal.
    apply unitLength_cases in Hlen as [[_ ->] | [[_ ->] | [[_ ->] | [_ ->]]]];
      generalize (LocalTime t0); intros l; unfold msPerHour, msPerMinute, msPerDay;
      match goal with
      | |- context [n * (?x / 60000)] =>
          let k := eval vm_compute in (x / 60000) in change (x / 60000) with k
      end; div_lia.
Qed.

End FixedOffset.

(** ** Percent-encoding in general *)

Lemma upper_hex_digit_unescaped d : 0 <= d < 16 -> uriUnescaped (upper_hex_digit d) = true.
Proof.
  intros Hd. unfold uriUnescaped, uriAlpha, DecimalDigit, upper_hex_digit.
  rewrite !orb_true_iff, !andb_true_iff, !Z.leb_le.
  destruct (Z.ltb_spec d 10); lia.
Qed.

Lemma utf8_octets_range cp :
  0 <= cp < 1114112 -> Forall (fun o => 0 <= o < 256) (utf8_octets cp).
Proof.
  intros Hcp. unfold utf8_octets.
  repeat match goal with |- context [?a <? ?b] => destruct (Z.ltb_spec a b) end;
    repeat constructor; div_lia.
Qed.

Lemma percent_escapes_alphabet os :
  Forall (fun o => 0 <= o < 256) os ->
  Forall (fun c => uriUnescaped c = true \/ c = 37) (concat (map percent os))
  /\ length (concat (map percent os)) = (3 * length os)%nat.
Proof.
  induction 1 as [| o os Ho _ [IHa IHl]]; cbn [map concat]; [split; [constructor | reflexivity] |].
  split.
  - unfold percent at 1. cbn [app].
    constructor; [now right |].
    constructor; [left; apply upper_hex_digit_unescaped; div_lia |].
    constructor; [left; apply upper_hex_digit_unescaped; div_lia | exact IHa].
  - rewrite length_app, IHl. cbn [percent length]. lia.
Qed.

Lemma utf8_octets_nonempty cp : (1 <= length (utf8_octets cp))%nat.
Proof.
  unfold utf8_octets.
  repeat match goal with |- context [?a <? ?b] => destruct (Z.ltb_spec a b) end; cbn; lia.
Qed.

Lemma encodeURIComponent_alphabet_upto (n : nat) :
  forall s : jsstring,
    (length s <= n)%nat ->
    Forall (fun c => 0 <= c < 65536) s ->
    match encodeURIComponent s with
    | Ok r => Forall (fun c => uriUnescaped c = true \/ c = 37) r
              /\ (length s <= length r)%nat
    | Throw e => e = URIError
    end.
Proof.
  induction n as [| n IH]; intros [| c rest] Hlen Hs; cbn [length] in Hlen;
    try (cbn; split; [constructor | lia]); try lia.
  apply Forall_cons_1 in Hs as [Hc Hrest].
  cbn [encodeURIComponent].
  destruct (uriUnescaped c) eqn:Hu.
  - specialize (IH rest ltac:(lia) Hrest).
    destruct (encodeURIComponent rest) as [r | e]; cbn [outcome_map]; [| exact IH].
    destruct IH as [IHa IHl]. split; [constructor; [now left | exact IHa] | cbn; lia].
  - destruct (is_trailing_surrogate c) eqn:Ht; [reflexivity |].
    destruct (is_leading_surrogate c) eqn:Hl.
    + destruct rest as [| d rest']; [reflexivity |].
      destruct (is_trailing_surrogate d) eqn:Hd; [| reflexivity].
      apply Forall_cons_1 in Hrest as [_ Hrest'].
      cbn [length] in Hlen. specialize (IH rest' ltac:(lia) Hrest').
      destruct (encodeURIComponent rest') as [r | e]; cbn [outcome_map]; [| exact IH].
      destruct IH as [IHa IHl].
      assert (Hcp : 0 <= surrogate_pair c d < 1114112).
      { unfold is_leading_surrogate, is_trailing_surrogate, surrogate_pair in *.
        rewrite andb_true_iff, !Z.leb_le in Hl, Hd. lia. }
      destruct (percent_escapes_alphabet _ (utf8_octets_range _ Hcp)) as [Ha Hlen3].
      pose proof (utf8_octets_nonempty (surrogate_pair c d)).
      split; [apply Forall_app; now split |].
      rewrite length_app, Hlen3. cbn [length]. lia.
    + specialize (IH rest ltac:(lia) Hrest).
      destruct (encodeURIComponent rest) as [r | e]; cbn [outcome_map]; [| exact IH].
      destruct IH as [IHa IHl].
      destruct (percent_escapes_alphabet _ (utf8_octets_range c ltac:(lia))) as [Ha Hlen3].
      pose proof (utf8_octets_nonempty c).
      split; [apply Forall_app; now split |].
      rewrite length_app, Hlen3. cbn [length]. lia.
Qed.

(** X15.  [encodeURIComponent], as the handler applies it to the two
    components of the link, can fail in one way only, with a URIError; when it
    returns, the result is made of unreserved characters (letters, digits and
    [-_.!~*'()]) and of ["%"], so that it cannot contain ["&"], ["="], ["#"],
    ["?"], ["/"] or a space, and it is at least as long as the argument. *)
Theorem X15_percent_encoding_is_query_safe (s : jsstring) :
  Forall (fun c => 0 <= c < 65536) s ->
  match encodeURIComponent s with
  | Ok r =>
      Forall (fun c => uriUnescaped c = true \/ c = 37) r
      /\ (length s <= length r)%nat
      /\ Forall (fun c => ~ In c (str "&=#?/ ")) r
  | Throw e => e = URIError
  end.
Proof.
  intros Hs. pose proof (encodeURIComponent_alphabet_upto (length s) s (le_n _) Hs) as Hsafe.
  destruct (encodeURIComponent s) as [r | e]; [| exact Hsafe].
  destruct Hsafe as [Ha Hl]. split; [exact Ha |]. split; [exact Hl |].
  eapply Forall_impl; [exact Ha |]. cbv beta. intros c [Hc | ->] Hin.
  - cbn in Hin. unfold code_unit in Hin. cbn in Hin.
    destruct Hin as [<- | [<- | [<- | [<- | [<- | [<- | []]]]]]]; discriminate Hc.
  - cbn in Hin. unfold code_unit in Hin. cbn in Hin.
    destruct Hin as [Heq | [Heq | [Heq | [Heq | [Heq | [Heq | []]]]]]]; discriminate Heq.
Qed.

Lemma X15_percent_encoding_is_query_safe_witness :
  match encodeURIComponent (str "a&b=c d") with
  | Ok r =>
      Forall (fun c => uriUnescaped c = true \/ c = 37) r
      /\ (length (str "a&b=c d") <= length r)%nat
      /\ Forall (fun c => ~ In c (str "&=#?/ ")) r
  | Throw e => e = URIError
  end.
Proof.
  apply (X15_percent_encoding_is_query_safe (str "a&b=c d")).
  vm_compute. repeat (apply List.Forall_cons; [split; [discriminate | reflexivity] |]).
  apply List.Forall_nil.
Defined.

(* ===================================================================== *)
(** * Properties of UpgradeProjectAlert.tsx *)
(* ===================================================================== *)

Module UpgradeProjectAlertFacts.
Import UpgradeProjectAlert.

Lemma jsstring_eqb_true a b : jsstring_eqb a b = true <-> a = b.
Proof. unfold jsstring_eqb. apply bool_decide_eq_true. Qed.

Lemma jsstring_eqb_false a b : jsstring_eqb a b = false <-> a <> b.
Proof. unfold jsstring_eqb. apply bool_decide_eq_false. Qed.

(** X16.  The status callback reloads the page exactly when the user is an
    admin, a status text is being shown and the query now reports the status
    [null] (the upgrade is over); it makes at most one call, so it never sets
    a status text and reloads in the same run, and it does nothing at all for
    a user who is not an admin or when the query returned no data. *)
Theorem X16_reload_exactly_when_upgrade_is_over
    (role : jsstring) (shown : option jsstring) (data : option (option jsstring)) :
  (In RouterReload (onSuccess role shown data)
   <-> role = str "admin" /\ shown <> None /\ data = Some None)
  /\ (length (onSuccess role shown data) <= 1)%nat
  /\ (role <> str "admin" \/ data = None -> onSuccess role shown data = []).
Proof.
  unfold onSuccess.
  destruct (jsstring_eqb role (str "admin")) eqn:Hrole; cbn [negb].
  - apply jsstring_eqb_true in Hrole.
    destruct data as [[status |] |], shown as [text |]; cbn [app];
      try destruct (jsstring_eqb status (str "IN_PROGRESS"));
      try destruct (jsstring_eqb status (str "FAILED")); cbn [In length app];
      (split; [split; [intros Hin | intros (_ & Hn & Hd)] | split; [lia |]]);
      try (intros [Hne | Hd]; [contradiction | try discriminate Hd; try reflexivity]);
      try discriminate Hd; try congruence; try tauto;
      try (destruct Hin as [Hin | Hin]; [discriminate Hin | destruct Hin]).
    repeat split; congruence.
  - apply jsstring_eqb_false in Hrole. cbn [In length].
    split; [split; [intros [] | intros (Heq & _); contradiction] |].
    split; [lia | reflexivity].
Qed.

(** X17.  The status callback never touches [isUpgrading] and never clears a
    status text: once a text is shown it stays shown until the page reloads.
    The text changes only for an admin and only when the query reports
    IN_PROGRESS or FAILED; any other status leaves it as it was. *)
Theorem X17_status_text_is_never_cleared (st : State) (role : jsstring)
    (data : option (option jsstring)) :
  isUpgrading (apply_all st (onSuccess role (currentStatus st) data)) = isUpgrading st
  /\ (currentStatus st <> None ->
      currentStatus (apply_all st (onSuccess role (currentStatus st) data)) <> None)
  /\ (currentStatus (apply_all st (onSuccess role (currentStatus st) data)) <> currentStatus st ->
      role = str "admin"
      /\ (data = Some (Some (str "IN_PROGRESS")) \/ data = Some (Some (str "FAILED")))).
Proof.
  unfold onSuccess, apply_all.
  destruct (jsstring_eqb role (str "admin")) eqn:Hrole; cbn [negb fold_left];
    [apply jsstring_eqb_true in Hrole | repeat split; congruence].
  destruct data as [[status |] |]; destruct (currentStatus st) as [text |] eqn:Hcs;
    cbn [app fold_left apply set currentStatus isUpgrading];
    try (rewrite Hcs; repeat split; congruence).
  - destruct (jsstring_eqb status (str "IN_PROGRESS")) eqn:Hp;
      [| destruct (jsstring_eqb status (str "FAILED")) eqn:Hf];
      cbn [app fold_left apply set currentStatus isUpgrading];
      rewrite ?Hcs; repeat split; try congruence.
    + left. apply jsstring_eqb_true in Hp. now subst.
    + right. apply jsstring_eqb_true in Hf. now subst.
  - destruct (jsstring_eqb status (str "IN_PROGRESS")) eqn:Hp;
      [| destruct (jsstring_eqb status (str "FAILED")) eqn:Hf];
      cbn [app fold_left apply set currentStatus isUpgrading];
      rewrite ?Hcs; repeat split; try congruence.
    + left. apply jsstring_eqb_true in Hp. now subst.
    + right. apply jsstring_eqb_true in Hf. now subst.
Qed.

(** X18.  A click sends the upgrade mutation exactly when no mutation was
    loading (as the callback saw it) and local storage holds a non-empty
    private key; the mutation then carries that key and the id of the
    project, and nothing else is ever sent. *)
Theorem X18_mutation_needs_a_private_key
    (loading : bool) (projectId : jsstring) (stored : option jsstring)
    (mutation : jsstring -> jsstring -> Outcome unit) (id key : jsstring) :
  In (MutateAsync id key) (fst (onUpgradeProject loading projectId stored mutation))
  <-> loading = false /\ stored = Some key /\ key <> [] /\ id = projectId.
Proof.
  unfold onUpgradeProject. destruct loading; cbn [fst In].
  - split; [intros [] | intros (Hl & _); discriminate Hl].
  - destruct stored as [[| c k] |]; cbn [fst In].
    + split; [intros [Hin | [Hin | []]]; discriminate Hin |].
      intros (_ & [= <-] & Hne & _). congruence.
    + destruct (mutation projectId (c :: k)); cbn [fst In]; split;
        try (intros [Hin | [Hin | Hrest]]; [discriminate Hin | |];
             [injection Hin as <- <-; repeat split; discriminate |
              try destruct Hrest as [Hin | [Hin | []]]; try discriminate Hin;
              try destruct Hrest]);
        intros (_ & [= <-] & _ & ->); right; left; reflexivity.
    + split; [intros [Hin | [Hin | []]]; discriminate Hin |].
      intros (_ & Hs & _). discriminate Hs.
Qed.

(** X19.  When local storage holds no private key, or an empty one, a click
    shows the notification "Private key not found" and sends nothing; but it
    has already set [isUpgrading] and schedules no timer to reset it, so after
    the click the button is shown as loading and disabled, whatever the
    queries report. *)
Theorem X19_missing_key_leaves_the_button_loading
    (projectId : jsstring) (mutation : jsstring -> jsstring -> Outcome unit) (st : State)
    (mutationIsLoading statusIsLoading : bool) (projectStatus : option (option jsstring)) :
  Forall (fun stored =>
            onUpgradeProject false projectId stored mutation
            = ([SetState (SetIsUpgrading true);
                CreateNotification (str "error") (str "Private key not found")], Ok tt)
            /\ let effects := fst (onUpgradeProject false projectId stored mutation) in
               let st' := fire_all (apply_all st effects) effects in
               isUpgrading st' = true
               /\ isLoading (isUpgrading st') mutationIsLoading (currentStatus st')
                            statusIsLoading projectStatus = true)
         [None; Some []].
Proof.
  repeat (apply List.Forall_cons; [split; [reflexivity | split; reflexivity] |]).
  apply List.Forall_nil.
Qed.

(** X20.  With a private key in local storage, the timer that resets
    [isUpgrading] after 5 seconds is set only when the mutation has resolved:
    then the status is refetched, [isUpgrading] is true until the timer fires
    and false afterwards.  When the mutation rejects, the callback rejects
    with the same error, nothing is refetched and no timer is set, so
    [isUpgrading] stays true. *)
Theorem X20_reset_timer_only_after_success
    (projectId : jsstring) (c : Z) (k : jsstring)
    (mutation : jsstring -> jsstring -> Outcome unit) (st : State) :
  let run := onUpgradeProject false projectId (Some (c :: k)) mutation in
  let st' := apply_all st (fst run) in
  isUpgrading st' = true
  /\ match mutation projectId (c :: k) with
     | Ok _ =>
         snd run = Ok tt
         /\ In Refetch (fst run)
         /\ In (SetTimeout [SetIsUpgrading false] 5000) (fst run)
         /\ isUpgrading (fire_all st' (fst run)) = false
     | Throw e =>
         snd run = Throw e
         /\ ~ In Refetch (fst run)
         /\ (forall callback delay, ~ In (SetTimeout callback delay) (fst run))
         /\ isUpgrading (fire_all st' (fst run)) = true
     end.
Proof.
  cbv zeta. unfold onUpgradeProject.
  destruct (mutation projectId (c :: k)) as [[] | e]; cbn [fst snd].
  - split; [reflexivity |]. split; [reflexivity |].
    split; [cbn; tauto |]. split; [cbn; tauto | reflexivity].
  - split; [reflexivity |]. split; [reflexivity |].
    split; [intros [Hin | [Hin | []]]; discriminate Hin |].
    split; [intros callback delay [Hin | [Hin | []]]; discriminate Hin | reflexivity].
Qed.

(** X21.  What the status callback sets decides the button together with
    [isLoading]: after the query reports FAILED to an admin, the failure text
    is shown and the button is enabled again unless a click is still being
    handled ([isLoading] is [isUpgrading]); after it reports IN_PROGRESS, the
    progress text is shown and the button is disabled. *)
Theorem X21_failed_status_enables_retry
    (st : State) (mutationIsLoading statusIsLoading : bool) :
  (let data := Some (Some (str "FAILED")) in
   let st' := apply_all st (onSuccess (str "admin") (currentStatus st) data) in
   currentStatus st' = Some (str "Upgrade failed, please try again.")
   /\ isLoading (isUpgrading st') mutationIsLoading (currentStatus st') statusIsLoading data
      = isUpgrading st)
  /\ (let data := Some (Some (str "IN_PROGRESS")) in
      let st' := apply_all st (onSuccess (str "admin") (currentStatus st) data) in
      currentStatus st' = Some (str "Your upgrade is being processed.")
      /\ isLoading (isUpgrading st') mutationIsLoading (currentStatus st') statusIsLoading data
         = true).
Proof.
  cbv zeta. unfold onSuccess.
  replace (jsstring_eqb (str "admin") (str "admin")) with true by (vm_compute; reflexivity).
  replace (jsstring_eqb (str "FAILED") (str "IN_PROGRESS")) with false
    by (vm_compute; reflexivity).
  replace (jsstring_eqb (str "FAILED") (str "FAILED")) with true by (vm_compute; reflexivity).
  replace (jsstring_eqb (str "IN_PROGRESS") (str "IN_PROGRESS")) with true
    by (vm_compute; reflexivity).
  cbn [negb]. unfold isLoading, status_is.
  replace (jsstring_eqb (str "FAILED") (str "FAILED")) with true by (vm_compute; reflexivity).
  replace (jsstring_eqb (str "IN_PROGRESS") (str "FAILED")) with false
    by (vm_compute; reflexivity).
  destruct (currentStatus st) as [text |];
    cbn [app apply_all fold_left apply set currentStatus isUpgrading not_null negb orb andb];
    rewrite ?orb_true_r, ?andb_false_r, ?orb_false_r, ?andb_true_r; repeat split; reflexivity.
Qed.

End UpgradeProjectAlertFacts.

(** ** The properties with hypotheses, at the example submission *)

Lemma X10_units_agree_witness :
  stored_expiries (onFormSubmit (platform := utc_platform) example_env
                                (with_expiration (example_data "Hours" 1) (str "Weeks") (Int 2)))
                  empty_world
  = stored_expiries (onFormSubmit (platform := utc_platform) example_env
                                  (with_expiration (example_data "Hours" 1) (str "Days")
                                                   (Int (7 * 2))))
                    empty_world.
Proof.
  apply (X10_units_agree (platform := utc_platform) example_env (example_data "Hours" 1)
           empty_world 2).
  split; [vm_compute; discriminate | split; [| vm_compute; discriminate]].
  intros t b. vm_compute. discriminate.
Defined.

Lemma X13_expiry_never_before_now_witness :
  exists e : Number,
    stored_expiries (handleSubmit (platform := utc_platform) example_env
                                  (example_form (str "hello") 1 1 "Hours")) empty_world = [e]
    /\ forall t : Z,
         e = Int t ->
         now example_env <= t
         /\ (t = now example_env <-> unitLength (expiresInUnit (example_data "Hours" 1)) = None).
Proof.
  apply (X13_expiry_never_before_now (platform := utc_platform) example_env
           (example_form (str "hello") 1 1 "Hours") (example_data "Hours" 1) empty_world 0).
  - intros t b. reflexivity.
  - vm_compute. reflexivity.
  - reflexivity.
Defined.

Lemma X14_readers_follow_the_action_witness :
  Time.HourFromTime (LocalTime (platform := utc_platform) 1705752000000 + 90 * Time.msPerMinute)
  * 60
  + Time.MinFromTime (LocalTime (platform := utc_platform) 1705752000000 + 90 * Time.msPerMinute)
  = (Time.HourFromTime (LocalTime (platform := utc_platform) 1705752000000) * 60
     + Time.MinFromTime (LocalTime (platform := utc_platform) 1705752000000)
     + 90 * (Time.msPerMinute / Time.msPerMinute)) mod 1440.
Proof.
  apply (X14_readers_follow_the_action (platform := utc_platform)
           (hd {| item_unit := []; item_action := fun _ _ => ret NaN |}
               (expirationUnitsAndActions (platform := utc_platform)))
           Time.msPerMinute empty_world 1705752000000 90 0).
  - left. reflexivity.
  - vm_compute. reflexivity.
  - intros t b. reflexivity.
  - split; [vm_compute; discriminate | split; [| vm_compute; discriminate]].
    intros t b. vm_compute. discriminate.
  - vm_compute. discriminate.
Defined.

(** ** The link in the state of the modal and on the clipboard *)

Section Clipboard.
Context {platform : Platform}.

(** X22.  After a submission the store accepted, copying puts the published
    link on the clipboard, raw key included (its last 32 characters).
    Opening or closing the modal afterwards empties the link in the state, so
    that the form is shown again, but leaves the clipboard as it was: the
    code never clears what it has copied. *)
Theorem X22_copied_link_outlives_the_modal
    (env : Env) (data : FormData) (w : World) (m : ModalState) (id : jsstring) :
  has_id (currentOrgId env) = true ->
  storeResponse env (storedPayload env data w) = Ok id ->
  let copied := copyUrlToClipboard
                  (after_submission m (events_of (onFormSubmit env data) w)) in
  clipboard copied = Some (shareLink (origin env) id (verifier env w) (rawKey env w))
  /\ (forall link, clipboard copied = Some link -> drop (length link - 32) link = rawKey env w)
  /\ hasSharedSecret (newSharedSecret copied) = true
  /\ hasSharedSecret (newSharedSecret (onOpenChange (copied_timer copied))) = false
  /\ clipboard (onOpenChange (copied_timer copied)) = clipboard copied.
Proof.
  intros Hid Hstore copied. unfold copied.
  rewrite events_of_onFormSubmit, Hid. unfold submitEvents. rewrite Hstore.
  cbn [after_submission copyUrlToClipboard copied_timer onOpenChange clipboard newSharedSecret
       newSharedSecret_after fold_left hasSharedSecret].
  split; [reflexivity |]. split.
  - intros link [= <-].
    apply (shareLink_parts (origin env) id (verifier env w) (rawKey env w));
      [apply verifier_length | apply rawKey_length].
  - split; [| split; reflexivity].
    destruct (shareLink _ _ _ _) eqn:Hl; [| reflexivity].
    now apply shareLink_nonempty in Hl.
Qed.

End Clipboard.

Lemma X22_copied_link_outlives_the_modal_witness :
  clipboard (copyUrlToClipboard
               (after_submission
                  {| newSharedSecret := []; isUrlCopied := false; clipboard := None |}
                  (events_of (onFormSubmit (platform := utc_platform) example_env
                                           (example_data "Hours" 1)) empty_world)))
  = Some (shareLink (origin example_env) (str "7c9e6679") (verifier example_env empty_world)
                    (rawKey example_env empty_world)).
Proof.
  apply (X22_copied_link_outlives_the_modal (platform := utc_platform) example_env
           (example_data "Hours" 1) empty_world
           {| newSharedSecret := []; isUrlCopied := false; clipboard := None |}
           (str "7c9e6679")); reflexivity.
Defined.

(** ** The calendar behind [getDate] and [setDate] *)

Module CalendarFacts.
Import Time TimeFacts.

(** X23.  The calendar functions the Days and Weeks actions rely on agree
    with one another for every time value: the year is the largest one that
    starts at or before the time, the month is between 0 and 11 and the date
    between 1 and 31, and building the day back from year, month and date with
    [MakeDay] gives the day of the time value again. *)
Theorem X23_calendar_round_trip (t : Z) :
  MakeDay (Int (YearFromTime t)) (Int (MonthFromTime t)) (Int (DateFromTime t)) = Int (Day t)
  /\ 0 <= MonthFromTime t <= 11
  /\ 1 <= DateFromTime t <= 31
  /\ (forall y, TimeFromYear y <= t <-> y <= YearFromTime t).
Proof.
  split; [| split; [apply MonthFromTime_range | split;
                    [apply DateFromTime_range | intros y; apply YearFromTime_largest]]].
  pose proof (MakeDay_shift t 0) as Hshift.
  now rewrite !Z.add_0_r in Hshift.
Qed.

End CalendarFacts.
